(** * Dispatch: the agent tools [do_math] and [execute_code]

    A shallow embedding of [src/tools.py] (with the constants of
    [src/utils.py]) and the properties of its code-submission pipeline,
    followed by the tools built on it or beside it: [search_fallback],
    [post_ntfy_message], [notify_external_system] and [read_ntfy_messages].

    Python [str] values are modelled as [string]; a character stands for the
    code point of the same number (0..255), so the classification of
    characters ([str.isalpha], the white space removed by [str.strip]) is the
    one Python applies to these code points. *)

From Stdlib Require Import String Ascii List ZArith Bool Lia Arith.
From Stdlib Require Import DecimalString SpecFloat.
From Stdlib Require DecimalZ.
Import ListNotations.

Local Open Scope list_scope.
Local Open Scope string_scope.

(** ** Python string primitives *)

Module Str.

(** [s[n:]] *)
Fixpoint drop (n : nat) (s : string) : string :=
  match n, s with
  | O, _ => s
  | S _, EmptyString => EmptyString
  | S n', String _ s' => drop n' s'
  end.

(** [s[:n]] *)
Fixpoint take (n : nat) (s : string) : string :=
  match n, s with
  | O, _ => EmptyString
  | S _, EmptyString => EmptyString
  | S n', String c s' => String c (take n' s')
  end.

(** [s.find(sub)]: the lowest index at which [sub] occurs, [None] for
    Python's [-1]. *)
Fixpoint find (sub s : string) : option nat :=
  if String.prefix sub s then Some O
  else match s with
       | EmptyString => None
       | String _ s' => option_map S (find sub s')
       end.

(** [s.rfind(sub)]: the highest index at which [sub] occurs. *)
Fixpoint rfind (sub s : string) : option nat :=
  match s with
  | EmptyString => if String.prefix sub s then Some O else None
  | String _ s' =>
      match rfind sub s' with
      | Some i => Some (S i)
      | None => if String.prefix sub s then Some O else None
      end
  end.

(** [sub in s] *)
Definition contains (sub s : string) : bool :=
  match find sub s with Some _ => true | None => false end.

(** [s.split(sep, maxsplit)] for a non-empty [sep]: cut at the leftmost
    occurrence, continue behind it, at most [maxsplit] times.  (Python raises
    [ValueError] for an empty separator; the source only passes the literals
    of [execute_code].) *)
Fixpoint splitn (maxsplit : nat) (sep s : string) : list string :=
  match maxsplit with
  | O => [s]
  | S m =>
      match find sep s with
      | None => [s]
      | Some i => take i s :: splitn m sep (drop (i + String.length sep) s)
      end
  end.

(** [s.split(sep)]: no bound on the number of cuts; a string of length [n]
    has at most [n] disjoint occurrences of a non-empty separator. *)
Definition split (sep s : string) : list string :=
  splitn (String.length s) sep s.

(** [sep.join(parts)] *)
Fixpoint join (sep : string) (parts : list string) : string :=
  match parts with
  | [] => EmptyString
  | [p] => p
  | p :: ps => p ++ sep ++ join sep ps
  end.

(** [s.replace(old, new)] for a non-empty [old]: every disjoint occurrence,
    found left to right, is replaced. *)
Definition replace (old new s : string) : string :=
  join new (split old s).

(** Code points below 256 for which [str.isspace] holds; these are the
    characters [str.strip()] removes. *)
Definition isspace_char (c : ascii) : bool :=
  let n := nat_of_ascii c in
  (((9 <=? n) && (n <=? 13)) || ((28 <=? n) && (n <=? 32))
   || (n =? 133) || (n =? 160))%nat.

(** Code points below 256 in a letter category (Lu, Ll, Lo). *)
Definition isalpha_char (c : ascii) : bool :=
  let n := nat_of_ascii c in
  (((65 <=? n) && (n <=? 90)) || ((97 <=? n) && (n <=? 122))
   || (n =? 170) || (n =? 181) || (n =? 186)
   || ((192 <=? n) && (n <=? 214)) || ((216 <=? n) && (n <=? 246))
   || ((248 <=? n) && (n <=? 255)))%nat.

Fixpoint lstrip (s : string) : string :=
  match s with
  | EmptyString => EmptyString
  | String c s' => if isspace_char c then lstrip s' else s
  end.

Fixpoint rstrip (s : string) : string :=
  match s with
  | EmptyString => EmptyString
  | String c s' =>
      match rstrip s' with
      | EmptyString => if isspace_char c then EmptyString else String c EmptyString
      | t => String c t
      end
  end.

(** [s.strip()] *)
Definition strip (s : string) : string := lstrip (rstrip s).

Fixpoint all_alpha (s : string) : bool :=
  match s with
  | EmptyString => true
  | String c s' => isalpha_char c && all_alpha s'
  end.

(** [s.isalpha()]: at least one character, all of them letters. *)
Definition isalpha (s : string) : bool :=
  match s with
  | EmptyString => false
  | _ => all_alpha s
  end.

(** [str(n)] for an [int]. *)
Definition of_int (n : Z) : string := NilZero.string_of_int (Z.to_int n).

End Str.


Definition LF : string := String "010"%char EmptyString.

(** ** Python objects

    The objects [execute_code] returns, sends and receives: [None], the JSON
    data model of [json.dumps] / [response.json()], and floats (IEEE 754
    binary64, as [spec_float]). *)

Local Unset Elimination Schemes.
Inductive value : Type :=
| VNone
| VBool (b : bool)
| VInt (n : Z)
| VFloat (x : spec_float)
| VStr (s : string)
| VList (items : list value)
| VDict (items : list (string * value)).
Local Set Elimination Schemes.

(** An exception, as far as the [except] clauses of [execute_code] inspect
    it: the two [isinstance] tests and [str(e)]. *)
Record exn : Type := {
  is_RequestException : bool;
  is_JSONDecodeError : bool;
  exn_text : string
}.

Inductive outcome (A : Type) : Type :=
| Returns (a : A)
| Raises (e : exn).
Arguments Returns {A} a.
Arguments Raises {A} e.

(** What [execute_code] reads of a [requests.Response]. *)
Record response : Type := {
  status_code : Z;
  reason : string;
  url : string;
  json : outcome value   (* [response.json()] *)
}.

(** ** Constants of [utils.py] *)

Definition MAX_RETRIES : Z := 3.
Definition INITIAL_RETRY_DELAY : Z := 1.
Definition API_TIMEOUT : Z := 10.

Definition SUPPORTED_LANGUAGES : list string :=
  [ "python"; "cpp"; "nodejs"; "go"; "go_test"; "java"; "php"; "csharp";
    "bash"; "typescript"; "sql"; "rust"; "cuda"; "lua"; "R"; "perl"; "D_ut";
    "ruby"; "scala"; "julia"; "pytest"; "junit"; "kotlin_script"; "jest";
    "verilog"; "python_gpu"; "lean"; "swift"; "racket" ].

(** [x in xs] for a list of strings. *)
Definition str_in (x : string) (xs : list string) : bool :=
  existsb (String.eqb x) xs.

(** ** [do_math] *)

Section Arithmetic.

(** [sys.get_int_max_str_digits()]: the number of digits up to which [str]
    turns an integer into text (4300 unless configured, 0 for no limit), and
    the [ValueError] it raises above that (its text differs between
    versions). *)
Variable int_max_str_digits : nat.
Variable digits_error : exn.

(** [str(a / b)]: how Python prints the float of the true quotient, or the
    [OverflowError] of a quotient too large for a float. *)
Variable str_of_quotient : Z -> Z -> outcome string.

(** The number of decimal digits of an integer, without its sign. *)
Definition int_digits (n : Z) : nat :=
  String.length (Str.of_int (Z.abs n)).

(** [f"{n}"] for an integer [n]. *)
Definition format_int (n : Z) : outcome string :=
  if ((0 <? int_max_str_digits) && (int_max_str_digits <? int_digits n))%nat
  then Raises digits_error
  else Returns (Str.of_int n).

(** [f"The result is {result}"] behind the conversion of [result]. *)
Definition the_result_is (text : outcome string) : outcome string :=
  match text with
  | Returns text => Returns ("The result is " ++ text)
  | Raises e => Raises e
  end.

Definition do_math (a b : Z) (operation : string) : outcome string :=
  (* [if operation == "sum": result = a + b]; a statement of its own,
     the chain below starts with a fresh [if] *)
  let result := if operation =? "sum" then Some (a + b)%Z else None in
  if operation =? "subtract" then
    let result := (a - b)%Z in
    the_result_is (format_int result)
  else if operation =? "multiply" then
    let result := (a * b)%Z in
    the_result_is (format_int result)
  else if operation =? "divide" then
    if (b =? 0)%Z then Returns "Error: Division by zero"
    else the_result_is (str_of_quotient a b)
  else Returns "Error: Unknown operation".

End Arithmetic.

(** The limit of an interpreter left as it is, with the [ValueError] of
    CPython 3.12 for it, and the [OverflowError] of a true division. *)
Definition default_int_max_str_digits : nat := 4300.

Definition default_digits_error : exn :=
  {| is_RequestException := false; is_JSONDecodeError := false;
     exn_text := "Exceeds the limit (4300 digits) for integer string "
                 ++ "conversion; use sys.set_int_max_str_digits() to "
                 ++ "increase the limit" |}.

Definition division_overflow : exn :=
  {| is_RequestException := false; is_JSONDecodeError := false;
     exn_text := "integer division result too large for a float" |}.

(** [do_math] on such an interpreter, with one answer for every division. *)
Definition do_math_with (quotient : outcome string) (a b : Z)
    (operation : string) : outcome string :=
  do_math default_int_max_str_digits default_digits_error
    (fun _ _ => quotient) a b operation.

(** The least limit an interpreter can be set to, and its [ValueError]. *)
Definition least_int_max_str_digits : nat := 640.

Definition least_digits_error : exn :=
  {| is_RequestException := false; is_JSONDecodeError := false;
     exn_text := "Exceeds the limit (640 digits) for integer string "
                 ++ "conversion; use sys.set_int_max_str_digits() to "
                 ++ "increase the limit" |}.

(** The [enum] of the [operation] parameter in the [do_math] entry of
    [TOOLS_SPEC]. *)
Definition do_math_operation_enum : list string :=
  ["sum"; "multiply"; "divide"; "subtract"].

(** ** Effects: the log, the outbound calls and the sleeps *)

Inductive level : Type := INFO | WARNING | ERROR.

Inductive event : Type :=
| Log (lv : level) (msg : string)
| Post (target : string) (headers : list (string * string)) (data : value)
       (timeout : Z)
| Sleep (seconds : Z).

(** A computation reads the events so far and appends its own. *)
Definition IO (A : Type) : Type := list event -> A * list event.

Definition ret {A : Type} (a : A) : IO A := fun t => (a, t).

Definition bind {A B : Type} (m : IO A) (k : A -> IO B) : IO B :=
  fun t => let (a, t') := m t in k a t'.

Declare Scope io_scope.
Delimit Scope io_scope with io.
Notation "x <- m ;; k" := (bind m (fun x => k))
  (at level 100, m at next level, right associativity) : io_scope.
Notation "m ;; k" := (bind m (fun _ => k))
  (at level 100, right associativity) : io_scope.

Definition emit (e : event) : IO unit := fun t => (tt, (t ++ [e])%list).

Definition is_post (e : event) : bool :=
  match e with Post _ _ _ _ => true | _ => false end.

(** The outbound calls of a trace, and their number. *)
Definition posts (t : list event) : list event := filter is_post t.
Definition calls (t : list event) : nat := length (posts t).

(** What a trace shows from outside: the outbound calls and the sleeps, in
    order. *)
Inductive action : Type :=
| Called
| Slept (seconds : Z).

Fixpoint timeline (t : list event) : list action :=
  match t with
  | [] => []
  | Post _ _ _ _ :: t' => Called :: timeline t'
  | Sleep d :: t' => Slept d :: timeline t'
  | Log _ _ :: t' => timeline t'
  end.

(** [range(n)] *)
Definition range (n : Z) : list Z := map Z.of_nat (seq 0 (Z.to_nat n)).

(** ** [execute_code]: extraction of the code block (lines 210-224) *)

Definition python_fence : string := "```python".
Definition fence : string := "```".

Inductive extraction : Type :=
| Code (code : string)
| Missing_code_block.          (* the [else] branch, which returns at once *)

Definition extract_code (completion : string) : extraction :=
  if Str.contains python_fence completion then
    Code (hd "" (Str.split fence (last (Str.split python_fence completion) "")))
  else if Str.contains fence completion then
    let parts := Str.split fence completion in
    if (2 <=? List.length parts)%nat then
      let code := nth 1 parts "" in
      if Str.contains LF code then
        match Str.splitn 1 LF code with
        | [first_line; rest] =>
            if Str.isalpha (Str.strip first_line) then Code rest else Code code
        | _ => Code code   (* not reached: the split has two parts *)
        end
      else Code code
    else Code completion
  else Missing_code_block.

(** *** The extraction in words

    Position-based descriptions of the text [extract_code] is meant to
    return, to compare it with. *)

(** The text behind the last [```python] of the completion. *)
Definition after_last_python_fence (completion : string) : option string :=
  match Str.rfind python_fence completion with
  | Some i => Some (Str.drop (i + String.length python_fence) completion)
  | None => None
  end.

(** The text behind the first [```python] of the completion. *)
Definition after_first_python_fence (completion : string) : option string :=
  match Str.find python_fence completion with
  | Some i => Some (Str.drop (i + String.length python_fence) completion)
  | None => None
  end.

(** A text up to its first bare fence, all of it when it has none. *)
Definition up_to_next_fence (text : string) : string :=
  match Str.find fence text with
  | Some j => Str.take j text
  | None => text
  end.

(** The first fenced segment: the text between the first bare fence and the
    next one. *)
Definition first_fenced_segment (completion : string) : option string :=
  match Str.find fence completion with
  | Some i =>
      Some (up_to_next_fence (Str.drop (i + String.length fence) completion))
  | None => None
  end.

(** The substring strictly between the first occurrence of the tagged fence
    and the next bare fence behind it. *)
Definition first_python_block (completion : string) : option string :=
  option_map up_to_next_fence (after_first_python_fence completion).

(** The same for the last occurrence of the tagged fence. *)
Definition last_python_block (completion : string) : option string :=
  option_map up_to_next_fence (after_last_python_fence completion).

(** Two tagged blocks, [A] and [B]. *)
Definition two_python_blocks : string :=
  "```python" ++ LF ++ "A" ++ LF ++ "```" ++ LF
  ++ "```python" ++ LF ++ "B" ++ LF ++ "```".

(** What the [else] branch returns: [0.0, [{"error": ...}]]. *)
Definition missing_code_block_result : value * value :=
  (VFloat (S754_zero false),
   VList [VDict [("error", VStr "Invalid completion (missing code block)")]]).

(** ** [execute_code]: request, retry loop and result *)

(** [Response.raise_for_status()] of the requests library: an [HTTPError] (a
    [RequestException]) for the 4xx and 5xx codes, nothing otherwise. *)
Definition HTTPError (text : string) : exn :=
  {| is_RequestException := true; is_JSONDecodeError := false;
     exn_text := text |}.

Definition raise_for_status (r : response) : option exn :=
  let code := status_code r in
  if ((400 <=? code) && (code <? 500))%Z then
    Some (HTTPError (Str.of_int code ++ " Client Error: " ++ reason r
                     ++ " for url: " ++ url r))
  else if ((500 <=? code) && (code <? 600))%Z then
    Some (HTTPError (Str.of_int code ++ " Server Error: " ++ reason r
                     ++ " for url: " ++ url r))
  else None.

(** How one turn of the loop ends. *)
Inductive step : Type :=
| Return_ (r : value * value)
| Break (last_error : option string)
| Continue (last_error : option string).

(** How the loop ends. *)
Inductive loop_exit : Type :=
| Returned (r : value * value)
| Fell_through (last_error : option string).

(** [f"{x}"] for an optional string. *)
Definition str_of_option (x : option string) : string :=
  match x with Some s => s | None => "None" end.

(** The pieces of the request and of the final error, as [execute_code]
    writes them. *)

Definition sandbox_fusion_url : string := "http://localhost:8080/run_code".

(** [f"[Request ID: {request_id}] "] *)
Definition log_prefix_of (request_id : string) : string :=
  "[Request ID: " ++ request_id ++ "] ".

Definition optional_str (s : option string) : value :=
  match s with Some x => VStr x | None => VNone end.

(** The dict handed to [json.dumps]. *)
Definition request_payload (code : string) (stdin : option string)
    (compile_timeout run_timeout memory_limit_mb : Z) (language : string)
  : value :=
  VDict [ ("compile_timeout", VInt compile_timeout);
          ("run_timeout", VInt run_timeout);
          ("code", VStr code);
          ("stdin", optional_str stdin);
          ("memory_limit_MB", VInt memory_limit_mb);
          ("language", VStr language);
          ("files", VDict []);
          ("fetch_files", VList []) ].

Definition headers : list (string * string) :=
  [ ("Content-Type", "application/json"); ("Accept", "application/json") ].

(** [last_error.replace(log_prefix, "API Call Failed: ") if last_error else
    "API Call Failed after retries"]: [None] and the empty string are
    false. *)
Definition failure_text (log_prefix : string) (last_error : option string)
  : string :=
  match last_error with
  | Some (String _ _ as e) => Str.replace log_prefix "API Call Failed: " e
  | _ => "API Call Failed after retries"
  end.

(** The text recorded for a 504 answer to the given attempt. *)
Definition timeout_text (log_prefix : string) (attempt : Z) : string :=
  log_prefix ++ "API Request Error: Gateway Timeout (504) on attempt "
  ++ Str.of_int (attempt + 1) ++ "/" ++ Str.of_int MAX_RETRIES.

(** The error returned when the last attempt was answered by 504. *)
Definition timeout_exhausted_text : string :=
  "API Call Failed: API Request Error: Gateway Timeout (504) on attempt 3/3".

(** The delays slept behind a 504 answer to the given attempt. *)
Definition backoff (attempt : Z) : list Z :=
  if (attempt <? MAX_RETRIES - 1)%Z
  then [(INITIAL_RETRY_DELAY * (attempt + 1))%Z] else [].

Section Pipeline.

(** The remote endpoint: what the k-th [requests.post] of the run does. *)
Variable endpoint : nat -> outcome response.

(** [str(uuid.uuid4())] of this call. *)
Variable uuid4 : string.

Definition post (target : string) (headers : list (string * string))
    (data : value) (timeout : Z) : IO (outcome response) :=
  fun t => (endpoint (calls t),
            (t ++ [Post target headers data timeout])%list).

Definition log (lv : level) (msg : string) : IO unit := emit (Log lv msg).
Definition sleep (seconds : Z) : IO unit := emit (Sleep seconds).

Local Open Scope io_scope.

Section Loop.

Variable log_prefix : string.
Variable payload : value.
Variable request_timeout : Z.

(** The three [except] clauses, tried in order. *)
Definition handler (e : exn) : string :=
  if is_RequestException e then
    log_prefix ++ "API Request Error: " ++ exn_text e
  else if is_JSONDecodeError e then
    log_prefix ++ "API Response JSON Decode Error: " ++ exn_text e
  else log_prefix ++ "Unexpected Error: " ++ exn_text e.

(** The body of [for attempt in range(MAX_RETRIES)]. *)
Definition attempt_body (attempt : Z) (last_error : option string)
  : IO step :=
  log INFO (log_prefix ++ "Attempt " ++ Str.of_int (attempt + 1) ++ "/"
            ++ Str.of_int MAX_RETRIES ++ ": Calling sandbox API at "
            ++ sandbox_fusion_url) ;;
  posted <- post sandbox_fusion_url headers payload request_timeout ;;
  match posted with
  | Raises e => ret (Break (Some (handler e)))
  | Returns response =>
      if (status_code response =? 504)%Z then
        let last_error :=
          (log_prefix
           ++ "API Request Error: Gateway Timeout (504) on attempt "
           ++ Str.of_int (attempt + 1) ++ "/"
           ++ Str.of_int MAX_RETRIES)%string in
        log WARNING last_error ;;
        (if (attempt <? MAX_RETRIES - 1)%Z then
           let delay := (INITIAL_RETRY_DELAY * (attempt + 1))%Z in
           log INFO (log_prefix ++ "Retrying after " ++ Str.of_int delay
                     ++ " seconds...") ;;
           sleep delay
         else ret tt) ;;
        ret (Continue (Some last_error))
      else
        match raise_for_status response with
        | Some e => ret (Break (Some (handler e)))
        | None =>
            log INFO (log_prefix ++ "Sandbox API call successful on attempt "
                      ++ Str.of_int (attempt + 1)) ;;
            match json response with
            | Returns parsed => ret (Return_ (parsed, VNone))
            | Raises e => ret (Break (Some (handler e)))
            end
        end
  end.

Fixpoint for_attempts (todo : list Z) (last_error : option string)
  : IO loop_exit :=
  match todo with
  | [] => ret (Fell_through last_error)
  | attempt :: rest =>
      s <- attempt_body attempt last_error ;;
      match s with
      | Return_ r => ret (Returned r)
      | Break e => ret (Fell_through e)
      | Continue e => for_attempts rest e
      end
  end.

End Loop.

Definition execute_code (completion : string) (stdin : option string)
    (compile_timeout run_timeout memory_limit_mb : Z) (language : string)
  : IO (value * value) :=
  match extract_code completion with
  | Missing_code_block => ret missing_code_block_result
  | Code code =>
      let request_id := uuid4 in
      let log_prefix := log_prefix_of request_id in
      if negb (str_in language SUPPORTED_LANGUAGES) then
        let error_msg :=
          (log_prefix ++ "Unsupported language: " ++ language)%string in
        log ERROR error_msg ;;
        ret (VNone, VStr error_msg)
      else
        let payload :=
          request_payload code stdin compile_timeout run_timeout
            memory_limit_mb language in
        let request_timeout :=
          (compile_timeout + run_timeout + API_TIMEOUT)%Z in
        exit <- for_attempts log_prefix payload request_timeout
                  (range MAX_RETRIES) None ;;
        match exit with
        | Returned r => ret r
        | Fell_through last_error =>
            log ERROR (log_prefix ++ "Sandbox API call failed. Last error: "
                       ++ str_of_option last_error) ;;
            ret (VNone, VStr (failure_text log_prefix last_error))
        end
  end.

(** One call of [execute_code], from an empty trace: the returned pair and
    the events of the call. *)
Definition run (completion : string) (stdin : option string)
    (compile_timeout run_timeout memory_limit_mb : Z) (language : string)
  : (value * value) * list event :=
  execute_code completion stdin compile_timeout run_timeout memory_limit_mb
    language [].

End Pipeline.

(** ** Failure classes and sample inputs *)

(** The failures of an attempt that are not a gateway timeout: an exception
    raised by the call, a 4xx or 5xx status other than 504, or an answer
    with any other status (2xx or not) whose body does not decode. *)
Inductive terminal_failure : outcome response -> Prop :=
| transport_failure (e : exn) : terminal_failure (Raises e)
| error_status (r : response) :
    (400 <= status_code r < 600)%Z -> status_code r <> 504%Z ->
    terminal_failure (Returns r)
| malformed_body (r : response) (e : exn) :
    ~ (400 <= status_code r < 600)%Z -> json r = Raises e ->
    terminal_failure (Returns r).

(** [requests.exceptions.JSONDecodeError], which is both a
    [RequestException] and a [json.JSONDecodeError]. *)
Definition decode_error : exn :=
  {| is_RequestException := true; is_JSONDecodeError := true;
     exn_text := "Expecting value: line 1 column 1 (char 0)" |}.

Definition answer (code : Z) (phrase : string) (body : outcome value)
  : outcome response :=
  Returns {| status_code := code; reason := phrase;
             url := sandbox_fusion_url; json := body |}.

Definition sample_result : value := VDict [("status", VStr "Success")].

Definition gateway_timeout : outcome response :=
  answer 504 "Gateway Timeout" (Raises decode_error).

(** 504, 504, then 200 with a JSON body. *)
Definition recovering_endpoint (k : nat) : outcome response :=
  match k with
  | 0 | 1 => gateway_timeout
  | _ => answer 200 "OK" (Returns sample_result)
  end.

Definition timing_out_endpoint (k : nat) : outcome response :=
  gateway_timeout.

Definition healthy_endpoint (k : nat) : outcome response :=
  answer 200 "OK" (Returns sample_result).

Definition broken_endpoint (k : nat) : outcome response :=
  answer 500 "Internal Server Error" (Raises decode_error).

(** A 300 answer with a JSON body: not 2xx, not 504, and not an error for
    [raise_for_status]. *)
Definition multiple_choices_endpoint (k : nat) : outcome response :=
  answer 300 "Multiple Choices" (Returns (VDict [])).

(** A 304 answer without a body, and a 200 answer that is no JSON. *)
Definition not_modified_endpoint (k : nat) : outcome response :=
  answer 304 "Not Modified" (Raises decode_error).

Definition garbled_endpoint (k : nat) : outcome response :=
  answer 200 "OK" (Raises decode_error).

Definition sample_uuid : string := "7d9f2c1e-4b5a-4c3d-9e8f-0a1b2c3d4e5f".
Definition other_uuid : string := "0c0ffee0-1234-4abc-8def-555555555555".

Definition python_completion : string :=
  "Here is the program:" ++ LF ++ "```python" ++ LF ++ "print(1)" ++ LF
  ++ "```".

Definition bare_completion : string :=
  "```js" ++ LF ++ "console.log(1)" ++ LF ++ "```".

Definition plain_completion : string := "print(1)".

(** A fence with nothing on its line, and the token on the line below. *)
Definition tagless_completion : string :=
  "```" ++ LF ++ "js" ++ LF ++ "console.log(1)" ++ LF ++ "```".

(** ** Further descriptions of the extraction *)

(** The first line of a text: what stands before its first newline, when it
    has one. *)
Definition first_line_of (text : string) : option string :=
  match Str.find LF text with
  | Some i => Some (Str.take i text)
  | None => None
  end.

(** ** The [ntfy.sh] tools: [post_ntfy_message], [notify_external_system] *)

(** An exception, as far as the [except] clauses of these tools inspect it:
    the [isinstance] tests in the order of the clauses, the status of the
    response an [HTTPError] carries, [type(e).__name__] and [str(e)]. *)
Record pyexc : Type := {
  is_Timeout : bool;
  is_ConnectionError : bool;
  HTTPError_status : option Z;
  type_name : string;
  str_of : string
}.

Inductive tried (A : Type) : Type :=
| Got (a : A)
| Threw (e : pyexc).
Arguments Got {A} a.
Arguments Threw {A} e.

(** What these tools read of a [requests.Response]. *)
Record http_reply : Type := {
  reply_status : Z;
  reply_reason : string;
  reply_url : string;
  reply_text : string
}.

Inductive verb : Type := GET | POST.

(** A call of [requests.get] or [requests.post]: the url, the [data] bytes,
    the headers and the [timeout] argument. *)
Record request : Type := {
  req_verb : verb;
  req_url : string;
  req_data : option string;
  req_headers : list (string * string);
  req_timeout : option Z
}.

Inductive relay_event : Type :=
| Said (lv : level) (msg : string)
| Sent (r : request).

(** [message.encode('utf-8')], as a string of bytes: a code point below 128
    is one byte, one from 128 to 255 two. *)
Fixpoint encode_utf8 (s : string) : string :=
  match s with
  | EmptyString => EmptyString
  | String c s' =>
      let n := nat_of_ascii c in
      if (n <? 128)%nat then String c (encode_utf8 s')
      else String (ascii_of_nat (192 + n / 64))
             (String (ascii_of_nat (128 + n mod 64)) (encode_utf8 s'))
  end.

(** [raise_for_status()] on such a response. *)
Definition reply_error (r : http_reply) : option pyexc :=
  let code := reply_status r in
  let HTTPError kind :=
    {| is_Timeout := false; is_ConnectionError := false;
       HTTPError_status := Some code; type_name := "HTTPError";
       str_of := Str.of_int code ++ kind ++ reply_reason r ++ " for url: "
                 ++ reply_url r |} in
  if ((400 <=? code) && (code <? 500))%Z then
    Some (HTTPError " Client Error: ")
  else if ((500 <=? code) && (code <? 600))%Z then
    Some (HTTPError " Server Error: ")
  else None.

(** ** [json.dumps] with its default arguments *)

Definition DQUOTE : string := String "034"%char EmptyString.
Definition BACKSLASH : string := String "092"%char EmptyString.

Definition hex_digit (n : nat) : string :=
  String (ascii_of_nat (if (n <? 10)%nat then 48 + n else 87 + n))
    EmptyString.

(** One character of a string, as [json.dumps] writes it
    ([ensure_ascii=True]): the short escapes, the characters from the space
    to the tilde as they are, [\u00xx] for the others. *)
Definition json_escape_char (c : ascii) : string :=
  let n := nat_of_ascii c in
  if (n =? 34)%nat then BACKSLASH ++ DQUOTE
  else if (n =? 92)%nat then BACKSLASH ++ BACKSLASH
  else if (n =? 10)%nat then BACKSLASH ++ "n"
  else if (n =? 13)%nat then BACKSLASH ++ "r"
  else if (n =? 9)%nat then BACKSLASH ++ "t"
  else if (n =? 8)%nat then BACKSLASH ++ "b"
  else if (n =? 12)%nat then BACKSLASH ++ "f"
  else if ((32 <=? n) && (n <=? 126))%nat then String c EmptyString
  else BACKSLASH ++ "u00" ++ hex_digit (n / 16) ++ hex_digit (n mod 16).

Fixpoint json_escape (s : string) : string :=
  match s with
  | EmptyString => EmptyString
  | String c s' => json_escape_char c ++ json_escape s'
  end.

Definition json_quote (s : string) : string :=
  DQUOTE ++ json_escape s ++ DQUOTE.

Section Dumps.

(** [float.__repr__] of a finite float. *)
Variable float_repr : spec_float -> string.

Definition json_float (x : spec_float) : string :=
  match x with
  | S754_nan => "NaN"
  | S754_infinity false => "Infinity"
  | S754_infinity true => "-Infinity"
  | _ => float_repr x
  end.

Fixpoint json_dumps (v : value) : string :=
  match v with
  | VNone => "null"
  | VBool true => "true"
  | VBool false => "false"
  | VInt n => Str.of_int n
  | VFloat x => json_float x
  | VStr s => json_quote s
  | VList items => "[" ++ Str.join ", " (map json_dumps items) ++ "]"
  | VDict items =>
      "{" ++ Str.join ", "
               (map (fun kv => json_quote (fst kv) ++ ": "
                               ++ json_dumps (snd kv)) items)
      ++ "}"
  end.

End Dumps.

Section Ntfy.

(** The configuration read from the environment when the module loads. *)
Variable NTFY_BASE_URL : string.
Variable NTFY_TIMEOUT : Z.
Variable NTFY_SYNC_CHANNEL : string.

(** What the network does with a request. *)
Variable network : request -> tried http_reply.

(** [datetime.utcnow().isoformat()] at the call, [str.upper] and the
    [repr] of a float. *)
Variable utcnow_isoformat : string.
Variable upper : string -> string.
Variable float_repr : spec_float -> string.

(** [requests.post(...)] followed by [response.raise_for_status()]. *)
Definition post_and_check (r : request) : tried http_reply :=
  match network r with
  | Threw e => Threw e
  | Got response =>
      match reply_error response with
      | Some e => Threw e
      | None => Got response
      end
  end.

Definition title_headers (title : option string) : list (string * string) :=
  match title with
  | Some (String _ _ as t) => [("Title", t)]
  | _ => []
  end.

(** The one request [post_ntfy_message] makes. *)
Definition ntfy_post_request (channel message : string)
    (title : option string) : request :=
  let url := NTFY_BASE_URL ++ "/" ++ channel in
  let headers := title_headers title in
  {| req_verb := POST; req_url := url;
     req_data := Some (encode_utf8 message);
     req_headers := headers; req_timeout := Some NTFY_TIMEOUT |}.

Definition post_ntfy_message (channel message : string)
    (title : option string) : string * list relay_event :=
  let posting := Said INFO ("Posting message to ntfy channel: " ++ channel) in
  let sent := Sent (ntfy_post_request channel message title) in
  match post_and_check (ntfy_post_request channel message title) with
  | Got response =>
      (if (50 <? String.length message)%nat
       then "Posted to '" ++ channel ++ "': " ++ Str.take 50 message ++ "..."
       else "Posted to '" ++ channel ++ "': " ++ message,
       [posting; sent;
        Said INFO ("Successfully posted to channel '" ++ channel ++ "'")])
  | Threw e =>
      if is_Timeout e then
        ("Timeout posting to ntfy channel '" ++ channel ++ "'.",
         [posting; sent])
      else if is_ConnectionError e then
        ("Connection error posting to ntfy channel '" ++ channel ++ "'.",
         [posting; sent])
      else
        match HTTPError_status e with
        | Some code =>
            ("HTTP error " ++ Str.of_int code ++ " posting to '" ++ channel
             ++ "'.",
             [posting; sent])
        | None =>
            let error_msg :=
              "Error posting to ntfy channel '" ++ channel ++ "': "
              ++ type_name e ++ ": " ++ str_of e in
            (error_msg, [posting; sent; Said ERROR error_msg])
        end
  end.

Definition notify_external_system (agent_id status message : string)
    (error : bool) : string * list relay_event :=
  let notification :=
    VDict [ ("agent_id", VStr agent_id);
            ("status", VStr status);
            ("message", VStr message);
            ("timestamp", VStr utcnow_isoformat);
            ("is_error", VBool error) ] in
  let channel := NTFY_SYNC_CHANNEL in
  let title := "Agent " ++ agent_id ++ " - " ++ upper status in
  let title := if error then title ++ " [ERROR]" else title in
  post_ntfy_message channel (json_dumps float_repr notification) (Some title).

End Ntfy.

(** The requests of a trace. *)
Fixpoint requests_of (t : list relay_event) : list request :=
  match t with
  | [] => []
  | Sent r :: t' => r :: requests_of t'
  | Said _ _ :: t' => requests_of t'
  end.

(** Sample networks and inputs for the [ntfy.sh] tools. *)

Definition accepting_network (r : request) : tried http_reply :=
  Got {| reply_status := 200; reply_reason := "OK"; reply_url := req_url r;
         reply_text := "" |}.

(** [str.upper] on a text of ASCII characters. *)
Fixpoint upper_ascii (s : string) : string :=
  match s with
  | EmptyString => EmptyString
  | String c s' =>
      let n := nat_of_ascii c in
      String (if ((97 <=? n) && (n <=? 122))%nat then ascii_of_nat (n - 32)
              else c)
        (upper_ascii s')
  end.

Definition no_float (x : spec_float) : string := "".

(** ** Python objects at work: truth, types, [get], slices *)

(** [bool(v)] *)
Definition truthy (v : value) : bool :=
  match v with
  | VNone => false
  | VBool b => b
  | VInt n => negb (n =? 0)%Z
  | VFloat (S754_zero _) => false
  | VFloat _ => true
  | VStr EmptyString => false
  | VStr _ => true
  | VList [] => false
  | VList _ => true
  | VDict [] => false
  | VDict _ => true
  end.

(** [type(v).__name__] *)
Definition py_type_name (v : value) : string :=
  match v with
  | VNone => "NoneType"
  | VBool _ => "bool"
  | VInt _ => "int"
  | VFloat _ => "float"
  | VStr _ => "str"
  | VList _ => "list"
  | VDict _ => "dict"
  end.

(** An exception of a builtin class, by its name and text. *)
Definition builtin_error (name text : string) : pyexc :=
  {| is_Timeout := false; is_ConnectionError := false;
     HTTPError_status := None; type_name := name; str_of := text |}.

(** [d.get(key, default)] on the items of a dict (a key occurs once). *)
Fixpoint dict_get (items : list (string * value)) (key : string)
    (default : value) : value :=
  match items with
  | [] => default
  | (k, v) :: rest => if k =? key then v else dict_get rest key default
  end.

(** [v.get(key, default)]: only a dict has the method. *)
Definition py_get (v : value) (key : string) (default : value)
  : tried value :=
  match v with
  | VDict items => Got (dict_get items key default)
  | _ => Threw (builtin_error "AttributeError"
                  ("'" ++ py_type_name v ++ "' object has no attribute 'get'"))
  end.

(** The bound [n] of a slice [xs[:n]] or [xs[n:]] as an index into a
    sequence of the given length: a negative bound counts from the end;
    [firstn], [skipn] and [take] stop at the end by themselves. *)
Definition slice_bound (n : Z) (len : nat) : nat :=
  Z.to_nat (if (n <? 0)%Z then Z.of_nat len + n else n).

(** The characters of a string, as iterating over it yields them. *)
Fixpoint chars_of (s : string) : list value :=
  match s with
  | EmptyString => []
  | String c s' => VStr (String c EmptyString) :: chars_of s'
  end.

(** What [json.loads] does with a string: the parsed object, a
    [JSONDecodeError], or another exception. *)
Inductive loaded : Type :=
| Loaded (v : value)
| Malformed
| Failed (e : pyexc).

(** ** [search_fallback] *)

(** The program text of the f-string [code]. *)
Definition fallback_program (q : string) (num_results : Z) : string :=
  Str.join LF
    [ "";
      "import requests";
      "from bs4 import BeautifulSoup";
      "import json";
      "";
      "try:";
      "    # Try DuckDuckGo as fallback";
      "    headers = {" ++ DQUOTE ++ "User-Agent" ++ DQUOTE ++ ": "
        ++ DQUOTE
        ++ "Mozilla/5.0 (Windows NT 10.0; Win64; x64) AppleWebKit/537.36"
        ++ DQUOTE ++ "}";
      "    url = " ++ DQUOTE ++ "https://duckduckgo.com/html" ++ DQUOTE;
      "    params = {" ++ DQUOTE ++ "q" ++ DQUOTE ++ ": " ++ DQUOTE ++ q
        ++ DQUOTE ++ "}";
      "    ";
      "    response = requests.get(url, params=params, headers=headers, timeout=5)";
      "    response.raise_for_status()";
      "    ";
      "    soup = BeautifulSoup(response.text, 'html.parser')";
      "    results = []";
      "    ";
      "    for link in soup.find_all('a', {'class': 'result__a'})[:"
        ++ Str.of_int num_results ++ "]:";
      "        title = link.get_text(strip=True)";
      "        href = link.get('href')";
      "        if title and href:";
      "            results.append({" ++ DQUOTE ++ "title" ++ DQUOTE
        ++ ": title, " ++ DQUOTE ++ "url" ++ DQUOTE ++ ": href})";
      "    ";
      "    if results:";
      "        print(json.dumps({" ++ DQUOTE ++ "success" ++ DQUOTE
        ++ ": True, " ++ DQUOTE ++ "results" ++ DQUOTE ++ ": results}))";
      "    else:";
      "        print(json.dumps({" ++ DQUOTE ++ "success" ++ DQUOTE
        ++ ": False, " ++ DQUOTE ++ "error" ++ DQUOTE ++ ": " ++ DQUOTE
        ++ "No results found" ++ DQUOTE ++ "}))";
      "except Exception as e:";
      "    print(json.dumps({" ++ DQUOTE ++ "success" ++ DQUOTE
        ++ ": False, " ++ DQUOTE ++ "error" ++ DQUOTE ++ ": str(e)}))";
      "" ].

(** [f"```python\\n{code}\\n```"]: the two characters backslash and [n]
    stand in the text, not a newline. *)
Definition fallback_completion (q : string) (num_results : Z) : string :=
  "```python" ++ BACKSLASH ++ "n" ++ fallback_program q num_results
  ++ BACKSLASH ++ "n```".

Section Fallback.

(** [json.loads] on a string, [str] of a float, list or dict, and the
    exception of [d[:n]] on a dict (it differs between Python versions). *)
Variable loads : string -> loaded.
Variable str_other : value -> string.
Variable dict_slice_error : Z -> pyexc.

(** [f"{v}"] *)
Definition py_str (v : value) : string :=
  match v with
  | VNone => "None"
  | VBool true => "True"
  | VBool false => "False"
  | VInt n => Str.of_int n
  | VStr s => s
  | _ => str_other v
  end.

(** [json.loads(v)] for any object [v]. *)
Definition json_loads (v : value) : loaded :=
  match v with
  | VStr s => loads s
  | _ => Failed (builtin_error "TypeError"
                   ("the JSON object must be str, bytes or bytearray, not "
                    ++ py_type_name v))
  end.

(** The items the loop runs over: [v[:n]]. *)
Definition py_slice_to (v : value) (n : Z) : tried (list value) :=
  match v with
  | VList items => Got (firstn (slice_bound n (List.length items)) items)
  | VStr s => Got (chars_of (Str.take (slice_bound n (String.length s)) s))
  | VDict _ => Threw (dict_slice_error n)
  | _ => Threw (builtin_error "TypeError"
                  ("'" ++ py_type_name v ++ "' object is not subscriptable"))
  end.

(** The [for] loop over the results, [i] counting from 1. *)
Fixpoint fallback_entries (i : Z) (items : list value) (formatted : string)
  : tried string :=
  match items with
  | [] => Got formatted
  | r :: rest =>
      match py_get r "title" (VStr "N/A") with
      | Threw e => Threw e
      | Got title =>
          match py_get r "url" (VStr "N/A") with
          | Threw e => Threw e
          | Got link =>
              fallback_entries (i + 1) rest
                (formatted ++ Str.of_int i ++ ". " ++ py_str title
                 ++ BACKSLASH ++ "n   URL: " ++ py_str link
                 ++ BACKSLASH ++ "n" ++ BACKSLASH ++ "n")
          end
      end
  end.

(** What follows [data = json.loads(output)] in the inner [try]. *)
Definition fallback_data (q : string) (num_results : Z) (data : value)
  : tried string :=
  match py_get data "success" VNone with
  | Threw e => Threw e
  | Got success =>
      if truthy success then
        let formatted :=
          "Fallback Search Results for '" ++ q ++ "':" ++ BACKSLASH ++ "n"
          ++ BACKSLASH ++ "n" in
        match py_get data "results" (VList []) with
        | Threw e => Threw e
        | Got results =>
            match py_slice_to results num_results with
            | Threw e => Threw e
            | Got items => fallback_entries 1 items formatted
            end
        end
      else
        match py_get data "error" (VStr "Unknown error") with
        | Threw e => Threw e
        | Got reason => Got ("Fallback search failed: " ++ py_str reason)
        end
  end.

(** The body of the outer [try], behind the call of [execute_code]. *)
Definition fallback_body (q : string) (num_results : Z)
    (result error : value) : tried string :=
  if truthy error then Got ("Fallback search error: " ++ py_str error)
  else
    match result with
    | VDict ((_ :: _) as items) =>
        let output := dict_get items "stdout" (VStr "") in
        match json_loads output with
        | Loaded data => fallback_data q num_results data
        | Malformed =>
            Got ("Fallback search output parsing error: " ++ py_str output)
        | Failed e => Threw e
        end
    | _ => Got "Fallback search returned unexpected format"
    end.

Definition fallback_reply (q : string) (num_results : Z)
    (result error : value) : string :=
  match fallback_body q num_results result error with
  | Got text => text
  | Threw e =>
      "Fallback search exception: " ++ type_name e ++ ": " ++ str_of e
  end.

Variable endpoint : nat -> outcome response.
Variable uuid4 : string.

Local Open Scope io_scope.

Definition search_fallback (q : string) (num_results : Z) : IO string :=
  log INFO ("Using fallback search for: " ++ q) ;;
  pair <- execute_code endpoint uuid4 (fallback_completion q num_results)
            (Some "") 10 5 128 "python" ;;
  ret (fallback_reply q num_results (fst pair) (snd pair)).

End Fallback.

(** ** [read_ntfy_messages] *)

Section ReadNtfy.

Variable NTFY_BASE_URL : string.
Variable network : request -> tried http_reply.

(** [json.loads] on a string, [str] of a float, list or dict, and
    [json.dumps(v, indent=2)]. *)
Variable loads : string -> loaded.
Variable str_other : value -> string.
Variable dumps_indent : value -> string.

(** The one request [read_ntfy_messages] makes. *)
Definition ntfy_read_request (channel : string) : request :=
  let url := NTFY_BASE_URL ++ "/" ++ channel ++ "/json?poll=1" in
  {| req_verb := GET; req_url := url; req_data := None; req_headers := [];
     req_timeout := Some 10%Z |}.

(** The first loop: the lines that are not blank are parsed, a line that is
    no JSON is logged and left out. *)
Fixpoint parse_lines (lines : list string) (messages : list value)
    (said : list relay_event) : tried (list value) * list relay_event :=
  match lines with
  | [] => (Got messages, said)
  | line :: rest =>
      match Str.strip line with
      | EmptyString => parse_lines rest messages said
      | _ =>
          match loads line with
          | Loaded msg => parse_lines rest (messages ++ [msg])%list said
          | Malformed =>
              parse_lines rest messages
                (said ++ [Said WARNING
                            ("Failed to parse JSON message: " ++ line)])%list
          | Failed e => (Threw e, said)
          end
      end
  end.

(** [messages[-limit:]] *)
Definition recent_messages (limit : Z) (messages : list value)
  : list value :=
  skipn (slice_bound (- limit) (List.length messages)) messages.

(** The second loop, [i] counting from 1. *)
Fixpoint ntfy_entries (i : Z) (messages : list value) (formatted : string)
  : tried string :=
  match messages with
  | [] => Got formatted
  | msg :: rest =>
      match py_get msg "time" (VStr "N/A"), py_get msg "message" (VStr ""),
            py_get msg "title" (VStr "") with
      | Got timestamp, Got message_text, Got title =>
          let formatted :=
            formatted ++ Str.of_int i ++ ". [Time: "
            ++ py_str str_other timestamp ++ "]" ++ LF in
          let formatted :=
            if truthy title
            then formatted ++ "   Title: " ++ py_str str_other title ++ LF
            else formatted in
          let formatted :=
            if truthy message_text
            then formatted ++ "   Message: "
                 ++ py_str str_other message_text ++ LF
            else formatted in
          let parsed :=
            match message_text with
            | VStr text =>
                match loads text with
                | Loaded json_data =>
                    Got (formatted ++ "   Parsed JSON: "
                         ++ dumps_indent json_data ++ LF)
                | Malformed => Got formatted
                | Failed e => Threw e
                end
            | _ => Got formatted        (* the [TypeError] is passed over *)
            end in
          match parsed with
          | Got formatted => ntfy_entries (i + 1) rest (formatted ++ LF)
          | Threw e => Threw e
          end
      | Threw e, _, _ => Threw e
      | _, Threw e, _ => Threw e
      | _, _, Threw e => Threw e
      end
  end.

(** The body of the [try], behind the request. *)
Definition read_body (channel : string) (limit : Z) (response : http_reply)
  : tried string * list relay_event :=
  match parse_lines (Str.split LF (Str.strip (reply_text response))) [] []
  with
  | (Threw e, said) => (Threw e, said)
  | (Got [], said) => (Got ("No messages found in channel: " ++ channel), said)
  | (Got messages, said) =>
      let recent := recent_messages limit messages in
      let count := Str.of_int (Z.of_nat (List.length recent)) in
      let formatted :=
        "Messages from '" ++ channel ++ "' (latest " ++ count ++ "):"
        ++ LF ++ LF in
      match ntfy_entries 1 recent formatted with
      | Got formatted =>
          (Got formatted,
           (said ++ [Said INFO ("Successfully retrieved " ++ count
                                ++ " messages from " ++ channel)])%list)
      | Threw e => (Threw e, said)
      end
  end.

(** The [except] clauses, tried in order: the reply, and whether it is
    logged as an error (the last clause does). *)
Definition read_failure (channel : string) (e : pyexc) : string * bool :=
  if is_Timeout e then
    ("Timeout reading from ntfy channel '" ++ channel
     ++ "'. Check your connection.", false)
  else if is_ConnectionError e then
    ("Connection error reading from ntfy channel '" ++ channel ++ "'.",
     false)
  else
    match HTTPError_status e with
    | Some code =>
        (if (code =? 404)%Z
         then "Channel '" ++ channel ++ "' not found or has no messages."
         else "HTTP error " ++ Str.of_int code ++ " reading from '"
              ++ channel ++ "'.",
         false)
    | None =>
        ("Error reading ntfy channel '" ++ channel ++ "': "
         ++ type_name e ++ ": " ++ str_of e, true)
    end.

(** The request and the body of the [try]. *)
Definition read_attempt (channel : string) (limit : Z)
  : tried string * list relay_event :=
  match network (ntfy_read_request channel) with
  | Threw e => (Threw e, [])
  | Got response =>
      match reply_error response with
      | Some e => (Threw e, [])
      | None => read_body channel limit response
      end
  end.

Definition read_ntfy_messages (channel : string) (limit : Z)
  : string * list relay_event :=
  let reading :=
    [ Said INFO ("Reading " ++ Str.of_int limit
                 ++ " messages from ntfy channel: " ++ channel);
      Sent (ntfy_read_request channel) ] in
  let (outcome, said) := read_attempt channel limit in
  match outcome with
  | Got formatted => (formatted, (reading ++ said)%list)
  | Threw e =>
      let (error_msg, logged) := read_failure channel e in
      (error_msg,
       (reading ++ said
        ++ if logged then [Said ERROR error_msg] else [])%list)
  end.

End ReadNtfy.

(** A sandbox whose run printed one search result: the body it answers,
    with [stdout] as the first key, and [json.loads] as far as that text
    needs it. *)
Definition found_output : string :=
  "{" ++ DQUOTE ++ "success" ++ DQUOTE ++ ": true}".

Definition found_loads (text : string) : loaded :=
  if text =? found_output then
    Loaded (VDict [ ("success", VBool true);
                    ("results",
                     VList [ VDict [ ("title", VStr "The Rocq Prover");
                                     ("url", VStr "https://rocq-prover.org") ];
                             VDict [ ("title", VStr "Second") ] ]) ])
  else Malformed.

Definition found_endpoint (k : nat) : outcome response :=
  answer 200 "OK"
    (Returns (VDict [ ("stdout", VStr found_output);
                      ("status", VStr "Success") ])).

(** A channel of three messages, one per line, with a blank line and a line
    that is no JSON; [json.loads] as far as these lines need it. *)
Definition sample_message (n : Z) : value :=
  VDict [("time", VInt n); ("message", VStr "hello")].

Definition sample_loads (line : string) : loaded :=
  match line with
  | "m1" => Loaded (sample_message 1)
  | "m2" => Loaded (sample_message 2)
  | "m3" => Loaded (sample_message 3)
  | _ => Malformed
  end.

Definition sample_channel (r : request) : tried http_reply :=
  Got {| reply_status := 200; reply_reason := "OK"; reply_url := req_url r;
         reply_text := "m1" ++ LF ++ LF ++ "m2" ++ LF ++ "oops" ++ LF
                       ++ "m3" ++ LF |}.

(** * Properties *)

(** ** The model on concrete inputs *)

Example split_at_fences :
  Str.split "```" "a```b```c" = ["a"; "b"; "c"]
  /\ Str.split "```" "a````b" = ["a"; "`b"]
  /\ Str.split "```" "a```" = ["a"; ""]
  /\ Str.splitn 1 "," "a,b,c" = ["a"; "b,c"].
Proof. repeat split; reflexivity. Qed.

Example replace_every_occurrence :
  Str.replace "ab" "X" "abcabab" = "XcXX".
Proof. reflexivity. Qed.

Example strip_then_isalpha :
  Str.strip ("  python " ++ LF) = "python"
  /\ Str.isalpha "python" = true
  /\ Str.isalpha "c++" = false
  /\ Str.isalpha "" = false.
Proof. repeat split; reflexivity. Qed.

Example extract_code_branches :
  extract_code python_completion = Code (LF ++ "print(1)" ++ LF)
  /\ extract_code bare_completion = Code ("console.log(1)" ++ LF)
  /\ extract_code "```js```" = Code "js"
  /\ extract_code plain_completion = Missing_code_block.
Proof. repeat split; reflexivity. Qed.

Example do_math_branches :
  do_math_with (Returns "1.5") 7 5 "subtract" = Returns "The result is 2"
  /\ do_math_with (Returns "1.5") 7 5 "multiply"
     = Returns "The result is 35"
  /\ do_math_with (Returns "1.5") 3 2 "divide" = Returns "The result is 1.5"
  /\ do_math_with (Returns "1.5") 3 0 "divide"
     = Returns "Error: Division by zero"
  /\ do_math_with (Returns "1.5") 3 0 "power"
     = Returns "Error: Unknown operation".
Proof. repeat split; reflexivity. Qed.

(** The two raising paths: with the limit set to 640 digits a product of
    641 digits raises, where one of 640 digits is printed; and a quotient
    too large for a float raises. *)
Example do_math_raises :
  do_math least_int_max_str_digits least_digits_error
    (fun _ _ => Raises division_overflow) (10 ^ 320) (10 ^ 320) "multiply"
  = Raises least_digits_error
  /\ (exists text,
        do_math least_int_max_str_digits least_digits_error
          (fun _ _ => Raises division_overflow) (10 ^ 320) (10 ^ 319)
          "multiply" = Returns text
        /\ String.length text = 14 + 640)
  /\ do_math_with (Raises division_overflow) (10 ^ 400) 1 "divide"
     = Raises division_overflow
  /\ do_math_with (Raises division_overflow) (10 ^ 400) 0 "divide"
     = Returns "Error: Division by zero".
Proof.
  split; [vm_compute; reflexivity|]. split.
  - eexists. split; vm_compute; reflexivity.
  - split; reflexivity.
Qed.

Example run_on_server_error :
  fst (run broken_endpoint sample_uuid python_completion (Some "") 10 5 128
         "python")
  = (VNone,
     VStr ("API Call Failed: API Request Error: 500 Server Error: "
           ++ "Internal Server Error for url: http://localhost:8080/run_code")).
Proof. reflexivity. Qed.

(** ** Strings: slices, occurrences and splitting *)

Module StrFacts.
Import Str.

Local Arguments String.prefix : simpl never.

Lemma prefix_empty (sub : string) :
  String.prefix sub "" = true -> sub = "".
Proof. now destruct sub. Qed.

Lemma prefix_cons (a b : ascii) (p s : string) :
  String.prefix (String a p) (String b s)
  = if ascii_dec a b then String.prefix p s else false.
Proof. reflexivity. Qed.

Lemma length_app (a b : string) :
  String.length (a ++ b) = String.length a + String.length b.
Proof. induction a as [|c a IH]; simpl; [reflexivity | now rewrite IH]. Qed.

Lemma length_drop (n : nat) (s : string) :
  String.length (drop n s) = String.length s - n.
Proof.
  revert s; induction n as [|n IH]; intros [|c s]; simpl; try lia.
  apply IH.
Qed.

Lemma drop_drop (a b : nat) (s : string) : drop a (drop b s) = drop (b + a) s.
Proof.
  revert s; induction b as [|b IH]; intros s; simpl; [reflexivity|].
  destruct s as [|c s]; [now destruct a | apply IH].
Qed.

Lemma drop_app (a b : string) (k : nat) :
  drop (String.length a + k) (a ++ b) = drop k b.
Proof. induction a as [|c a IH]; simpl; [reflexivity | exact IH]. Qed.

Lemma take_app (a b : string) : take (String.length a) (a ++ b) = a.
Proof. induction a as [|c a IH]; simpl; [reflexivity | now rewrite IH]. Qed.

Lemma length_take (n : nat) (s : string) :
  n <= String.length s -> String.length (take n s) = n.
Proof.
  revert s; induction n as [|n IH]; intros [|c s]; simpl; try lia.
  intros H; rewrite IH; lia.
Qed.

Lemma prefix_app (p r : string) : String.prefix p (p ++ r) = true.
Proof.
  induction p as [|c p IH]; [now destruct r|].
  simpl. rewrite prefix_cons.
  destruct (ascii_dec c c); [exact IH | congruence].
Qed.

Lemma prefix_decomp (p s : string) :
  String.prefix p s = true -> s = p ++ drop (String.length p) s.
Proof.
  revert s; induction p as [|c p IH]; intros s H; [reflexivity|].
  destruct s as [|d s]; [discriminate|]. rewrite prefix_cons in H.
  destruct (ascii_dec c d) as [->|]; [|discriminate].
  simpl; f_equal; now apply IH.
Qed.

(** An occurrence found by [find] cuts the string in three. *)
Lemma find_Some_decomp (sub s : string) (i : nat) :
  find sub s = Some i ->
  s = take i s ++ sub ++ drop (i + String.length sub) s
  /\ i + String.length sub <= String.length s.
Proof.
  revert i; induction s as [|c s IH]; intros i; simpl.
  - destruct (String.prefix sub "") eqn:P; [|discriminate].
    intros H; injection H as <-. apply prefix_empty in P as ->. auto.
  - destruct (String.prefix sub (String c s)) eqn:P.
    + intros H; injection H as <-. apply prefix_decomp in P as E. simpl.
      split; [exact E|].
      apply (f_equal String.length) in E. rewrite length_app in E.
      simpl in E. lia.
    + destruct (find sub s) as [j|] eqn:F; simpl; [|discriminate].
      intros H; injection H as <-. destruct (IH j eq_refl) as [E L]. simpl.
      split; [now rewrite <- E | lia].
Qed.

Lemma find_None_rfind (sub s : string) :
  find sub s = None -> rfind sub s = None.
Proof.
  induction s as [|c s IH]; simpl.
  - now destruct (String.prefix sub "").
  - destruct (String.prefix sub (String c s)); [discriminate|].
    destruct (find sub s); simpl; [discriminate|].
    intros _. now rewrite IH.
Qed.

Lemma rfind_None_find (sub s : string) :
  rfind sub s = None -> find sub s = None.
Proof.
  induction s as [|c s IH]; simpl.
  - now destruct (String.prefix sub "").
  - destruct (rfind sub s); [discriminate|].
    destruct (String.prefix sub (String c s)); [discriminate|].
    intros _. now rewrite IH.
Qed.

Lemma contains_rfind (sub s : string) :
  contains sub s = true -> exists i, rfind sub s = Some i.
Proof.
  unfold contains. destruct (rfind sub s) as [i|] eqn:R; [now exists i|].
  now rewrite (rfind_None_find _ _ R).
Qed.

(** The last occurrence in a suffix is the last occurrence in the whole. *)
Lemma rfind_app_Some (sub a b : string) (j : nat) :
  rfind sub b = Some j -> rfind sub (a ++ b) = Some (String.length a + j).
Proof.
  intros R; induction a as [|c a IH]; simpl; [exact R | now rewrite IH].
Qed.

Lemma prefix_nil (s : string) : String.prefix "" s = true.
Proof. now destruct s. Qed.

(** A one-character separator is first found behind a text without it. *)
Lemma find_char_app (c : ascii) (a b : string) :
  find (String c "") a = None ->
  find (String c "") (a ++ String c b) = Some (String.length a).
Proof.
  induction a as [|d a IH]; simpl.
  - intros _. rewrite prefix_cons, prefix_nil.
    now destruct (ascii_dec c c).
  - rewrite !prefix_cons, !prefix_nil.
    destruct (ascii_dec c d); [discriminate|].
    destruct (find (String c "") a); [discriminate|].
    intros _. now rewrite IH.
Qed.

Lemma splitn_S (n : nat) (sep s : string) :
  splitn (S n) sep s
  = match find sep s with
    | None => [s]
    | Some i => take i s :: splitn n sep (drop (i + String.length sep) s)
    end.
Proof. reflexivity. Qed.

Lemma splitn_not_nil (n : nat) (sep s : string) : splitn n sep s <> [].
Proof. destruct n; simpl; [|destruct (find sep s)]; discriminate. Qed.

Lemma splitn_no_occurrence (n : nat) (sep s : string) :
  find sep s = None -> splitn n sep s = [s].
Proof. intros F; destruct n; simpl; [|rewrite F]; reflexivity. Qed.

Lemma last_cons_not_nil {A : Type} (x d : A) (l : list A) :
  l <> [] -> last (x :: l) d = last l d.
Proof. now destruct l. Qed.

(** [s.split(sep)[0]] is the text before the first occurrence of [sep]. *)
Lemma hd_splitn (n : nat) (sep s : string) :
  0 < n ->
  hd "" (splitn n sep s)
  = match find sep s with Some j => take j s | None => s end.
Proof.
  destruct n; [lia|]. intros _; simpl. now destruct (find sep s).
Qed.

Lemma hd_split (sep s : string) :
  hd "" (split sep s)
  = match find sep s with Some j => take j s | None => s end.
Proof.
  unfold split. destruct s as [|c s].
  - simpl. now destruct (String.prefix sep "").
  - apply hd_splitn. simpl. lia.
Qed.

(** Replacing a non-empty text at the head of a string that has no other
    occurrence of it. *)
Lemma replace_own_prefix (old new msg : string) :
  old <> "" -> find old msg = None ->
  replace old new (old ++ msg) = new ++ msg.
Proof.
  intros N F. destruct old as [|c old]; [congruence|].
  unfold replace, split.
  change (String c old ++ msg) with (String c (old ++ msg)).
  cbn [String.length]. rewrite splitn_S.
  change (find (String c old) (String c (old ++ msg)))
    with (if String.prefix (String c old) (String c old ++ msg)
          then Some 0 else option_map S (find (String c old) (old ++ msg))).
  rewrite prefix_app.
  replace (0 + String.length (String c old))
    with (String.length (String c old) + 0) by lia.
  change (String c (old ++ msg)) with (String c old ++ msg).
  rewrite drop_app. cbn [drop take].
  now rewrite (splitn_no_occurrence _ _ _ F).
Qed.

End StrFacts.

(** ** The code block taken from a completion *)

Module ExtractFacts.
Import Str StrFacts.

Lemma python_fence_is_fenced (s : string) :
  String.prefix python_fence s = true -> String.prefix fence s = true.
Proof.
  intros P. rewrite (prefix_decomp _ _ P).
  exact (prefix_app fence ("python" ++ drop (String.length python_fence) s)).
Qed.

Lemma no_fence_no_python_fence (s : string) :
  find fence s = None -> find python_fence s = None.
Proof.
  induction s as [|c s IH].
  - reflexivity.
  - change (find fence (String c s))
      with (if String.prefix fence (String c s) then Some 0
            else option_map S (find fence s)).
    change (find python_fence (String c s))
      with (if String.prefix python_fence (String c s) then Some 0
            else option_map S (find python_fence s)).
    destruct (String.prefix python_fence (String c s)) eqn:P.
    + now rewrite (python_fence_is_fenced _ P).
    + destruct (String.prefix fence (String c s)); [discriminate|].
      destruct (find fence s); [discriminate|].
      intros _. now rewrite IH.
Qed.

(** No occurrence of [```python] starts inside another one: behind an
    occurrence, the last occurrence is that one unless the rest has its
    own. *)
Lemma rfind_python_fence_restart (rest : string) :
  rfind python_fence rest = None ->
  rfind python_fence (python_fence ++ rest) = Some 0.
Proof.
  intros R. unfold python_fence in *. simpl. rewrite R.
  now rewrite prefix_nil.
Qed.

(** [completion.split("```python")[-1]] is the text behind the last
    occurrence of the tagged fence. *)
Lemma last_splitn_python_fence (n : nat) (s : string) :
  String.length s <= n ->
  last (splitn n python_fence s) ""
  = match rfind python_fence s with
    | Some i => drop (i + String.length python_fence) s
    | None => s
    end.
Proof.
  revert s; induction n as [|n IH]; intros s L.
  - destruct s; [reflexivity | simpl in L; lia].
  - rewrite splitn_S. destruct (find python_fence s) as [i|] eqn:F.
    + destruct (find_Some_decomp _ _ _ F) as [E B].
      remember (drop (i + String.length python_fence) s) as rest eqn:Hrest.
      rewrite last_cons_not_nil by apply splitn_not_nil.
      assert (Lr : String.length rest <= n).
      { rewrite Hrest, length_drop.
        change (String.length python_fence) with 9 in *. lia. }
      rewrite (IH rest Lr).
      assert (Li : String.length (take i s) = i) by (apply length_take; lia).
      destruct (rfind python_fence rest) as [j|] eqn:R.
      * assert (Rs : rfind python_fence (take i s ++ python_fence ++ rest)
                     = Some (String.length (take i s)
                             + (String.length python_fence + j)))
          by apply rfind_app_Some, rfind_app_Some, R.
        rewrite <- E, Li in Rs. rewrite Rs, Hrest, drop_drop.
        f_equal. lia.
      * assert (Rs : rfind python_fence (take i s ++ python_fence ++ rest)
                     = Some (String.length (take i s) + 0))
          by apply rfind_app_Some, rfind_python_fence_restart, R.
        rewrite <- E, Li, Nat.add_0_r in Rs. now rewrite Rs, Hrest.
    + now rewrite (find_None_rfind _ _ F).
Qed.

Lemma last_split_python_fence (s : string) (i : nat) :
  rfind python_fence s = Some i ->
  last (split python_fence s) ""
  = drop (i + String.length python_fence) s.
Proof.
  intros R. unfold split. rewrite last_splitn_python_fence by lia.
  now rewrite R.
Qed.

Lemma extract_code_no_fence (completion : string) :
  contains fence completion = false ->
  extract_code completion = Missing_code_block.
Proof.
  unfold extract_code, contains. intros H.
  destruct (find fence completion) eqn:F; [discriminate|].
  now rewrite (no_fence_no_python_fence _ F).
Qed.

Lemma extract_code_python_fence (completion : string) (i : nat) :
  rfind python_fence completion = Some i ->
  extract_code completion
  = Code (up_to_next_fence
            (drop (i + String.length python_fence) completion)).
Proof.
  intros R. unfold extract_code, contains.
  destruct (find python_fence completion) eqn:F.
  - now rewrite (last_split_python_fence _ _ R), hd_split.
  - rewrite (find_None_rfind _ _ F) in R. discriminate.
Qed.

Lemma nth_1_cons {A : Type} (x d : A) (l : list A) :
  nth 1 (x :: l) d = hd d l.
Proof. now destruct l. Qed.

(** [completion.split("```")]: at least two parts when a fence occurs, and
    [parts[1]] is the first fenced segment. *)
Lemma split_fence_parts (completion : string) (i : nat) :
  find fence completion = Some i ->
  (2 <=? List.length (split fence completion))%nat = true
  /\ nth 1 (split fence completion) ""
     = up_to_next_fence (drop (i + String.length fence) completion).
Proof.
  intros F. destruct (find_Some_decomp _ _ _ F) as [_ B].
  change (String.length fence) with 3 in *.
  unfold split.
  destruct (String.length completion) as [|[|m]] eqn:L; try lia.
  rewrite splitn_S, F. change (String.length fence) with 3. split.
  - pose proof (splitn_not_nil (S m) fence (drop (i + 3) completion)) as N.
    now destruct (splitn (S m) fence (drop (i + 3) completion)).
  - rewrite nth_1_cons, hd_splitn by lia. reflexivity.
Qed.

(** [code.split("\n", 1)] cuts behind the first line. *)
Lemma split_first_line (first_line rest : string) :
  contains LF first_line = false ->
  contains LF (first_line ++ LF ++ rest) = true
  /\ splitn 1 LF (first_line ++ LF ++ rest) = [first_line; rest].
Proof.
  unfold contains. intros H.
  destruct (find LF first_line) eqn:F; [discriminate|].
  assert (E : find LF (first_line ++ LF ++ rest)
              = Some (String.length first_line))
    by exact (find_char_app _ _ rest F).
  rewrite splitn_S, E. split; [reflexivity|].
  rewrite take_app, drop_app. reflexivity.
Qed.

End ExtractFacts.

(** ** The retry loop *)

Module LoopFacts.

Lemma calls_app (t u : list event) : calls (t ++ u)%list = calls t + calls u.
Proof. unfold calls, posts. now rewrite filter_app, length_app. Qed.

Lemma timeline_app (t u : list event) :
  timeline (t ++ u)%list = (timeline t ++ timeline u)%list.
Proof.
  induction t as [|e t IH]; [reflexivity|].
  destruct e; simpl; now rewrite IH.
Qed.

Lemma calls_log (t : list event) (lv : level) (msg : string) :
  calls (t ++ [Log lv msg])%list = calls t.
Proof. rewrite calls_app. unfold calls; simpl. lia. Qed.

Lemma calls_sleep (t : list event) (d : Z) :
  calls (t ++ [Sleep d])%list = calls t.
Proof. rewrite calls_app. unfold calls; simpl. lia. Qed.

Lemma calls_post (t : list event) (target : string)
    (headers : list (string * string)) (data : value) (timeout : Z) :
  calls (t ++ [Post target headers data timeout])%list = S (calls t).
Proof. rewrite calls_app. unfold calls; simpl. lia. Qed.

Lemma timeline_log (t : list event) (lv : level) (msg : string) :
  timeline (t ++ [Log lv msg])%list = timeline t.
Proof. rewrite timeline_app. apply app_nil_r. Qed.

Lemma timeline_post (t : list event) (target : string)
    (headers : list (string * string)) (data : value) (timeout : Z) :
  timeline (t ++ [Post target headers data timeout])%list
  = (timeline t ++ [Called])%list.
Proof. now rewrite timeline_app. Qed.

Lemma timeline_sleep (t : list event) (d : Z) :
  timeline (t ++ [Sleep d])%list = (timeline t ++ [Slept d])%list.
Proof. now rewrite timeline_app. Qed.

Create Rewrite HintDb trace.
#[export] Hint Rewrite calls_log calls_sleep calls_post
  timeline_log timeline_post timeline_sleep : trace.

Section Body.

Variable endpoint : nat -> outcome response.
Variable log_prefix : string.
Variable payload : value.
Variable request_timeout : Z.

Local Abbreviation body :=
  (attempt_body endpoint log_prefix payload request_timeout).
Local Abbreviation loop :=
  (for_attempts endpoint log_prefix payload request_timeout).

Ltac run_body :=
  unfold attempt_body, bind, log, sleep, post, emit, ret;
  cbn [fst snd]; rewrite ?calls_log.

Ltac summary := cbn [fst snd]; autorewrite with trace; auto.

(** Every turn of the loop issues one outbound call. *)
Lemma body_one_call (attempt : Z) (last_error : option string)
    (t : list event) :
  calls (snd (body attempt last_error t)) = S (calls t).
Proof.
  run_body.
  destruct (endpoint (calls t)) as [r|e]; [|summary].
  destruct (status_code r =? 504)%Z.
  - destruct (attempt <? MAX_RETRIES - 1)%Z; summary.
  - destruct (raise_for_status r); [summary|].
    destruct (json r); summary.
Qed.

(** A 504 answer: the error is recorded, the back-off is slept unless this
    was the last attempt, and the loop goes on. *)
Lemma body_gateway_timeout (attempt : Z) (last_error : option string)
    (t : list event) (r : response) :
  endpoint (calls t) = Returns r ->
  status_code r = 504%Z ->
  fst (body attempt last_error t)
  = Continue (Some (timeout_text log_prefix attempt))
  /\ timeline (snd (body attempt last_error t))
     = (timeline t ++ Called :: map Slept (backoff attempt))%list.
Proof.
  intros E S. run_body. rewrite E, S, Z.eqb_refl. unfold backoff.
  destruct (attempt <? MAX_RETRIES - 1)%Z; summary.
  split; [reflexivity|]. now rewrite <- List.app_assoc.
Qed.

(** A raised exception ends the loop, without a sleep. *)
Lemma body_raises (attempt : Z) (last_error : option string)
    (t : list event) (e : exn) :
  endpoint (calls t) = Raises e ->
  fst (body attempt last_error t) = Break (Some (handler log_prefix e))
  /\ timeline (snd (body attempt last_error t))
     = (timeline t ++ [Called])%list.
Proof. intros E. run_body. rewrite E. summary. Qed.

(** An answer other than 504 that [raise_for_status] rejects ends the
    loop, without a sleep. *)
Lemma body_http_error (attempt : Z) (last_error : option string)
    (t : list event) (r : response) (e : exn) :
  endpoint (calls t) = Returns r ->
  status_code r <> 504%Z ->
  raise_for_status r = Some e ->
  fst (body attempt last_error t) = Break (Some (handler log_prefix e))
  /\ timeline (snd (body attempt last_error t))
     = (timeline t ++ [Called])%list.
Proof.
  intros E S R. run_body. apply Z.eqb_neq in S. rewrite E, S, R. summary.
Qed.

(** An accepted answer is decoded: the parsed body is returned, or the
    decoding error ends the loop. *)
Lemma body_accepted (attempt : Z) (last_error : option string)
    (t : list event) (r : response) :
  endpoint (calls t) = Returns r ->
  status_code r <> 504%Z ->
  raise_for_status r = None ->
  fst (body attempt last_error t)
  = match json r with
    | Returns parsed => Return_ (parsed, VNone)
    | Raises e => Break (Some (handler log_prefix e))
    end
  /\ timeline (snd (body attempt last_error t))
     = (timeline t ++ [Called])%list.
Proof.
  intros E S R. run_body. apply Z.eqb_neq in S. rewrite E, S, R.
  destruct (json r); summary.
Qed.

Lemma body_success (attempt : Z) (last_error : option string)
    (t : list event) (r : response) (parsed : value) :
  endpoint (calls t) = Returns r ->
  status_code r <> 504%Z ->
  raise_for_status r = None ->
  json r = Returns parsed ->
  fst (body attempt last_error t) = Return_ (parsed, VNone)
  /\ timeline (snd (body attempt last_error t))
     = (timeline t ++ [Called])%list.
Proof.
  intros E S R J.
  destruct (body_accepted attempt last_error t r E S R) as [F Sl].
  rewrite J in F. auto.
Qed.

Lemma body_undecodable (attempt : Z) (last_error : option string)
    (t : list event) (r : response) (e : exn) :
  endpoint (calls t) = Returns r ->
  status_code r <> 504%Z ->
  raise_for_status r = None ->
  json r = Raises e ->
  fst (body attempt last_error t) = Break (Some (handler log_prefix e))
  /\ timeline (snd (body attempt last_error t))
     = (timeline t ++ [Called])%list.
Proof.
  intros E S R J.
  destruct (body_accepted attempt last_error t r E S R) as [F Sl].
  rewrite J in F. auto.
Qed.

Lemma loop_cons (attempt : Z) (rest : list Z) (last_error : option string)
    (t : list event) :
  loop (attempt :: rest) last_error t
  = match fst (body attempt last_error t) with
    | Return_ r => (Returned r, snd (body attempt last_error t))
    | Break e => (Fell_through e, snd (body attempt last_error t))
    | Continue e => loop rest e (snd (body attempt last_error t))
    end.
Proof.
  simpl. unfold bind at 1.
  destruct (attempt_body _ _ _ _ _ _ _) as [[r|e|e] t']; reflexivity.
Qed.

Lemma loop_gateway_timeout (attempt : Z) (rest : list Z)
    (last_error : option string) (t : list event) (r : response) :
  endpoint (calls t) = Returns r ->
  status_code r = 504%Z ->
  exists t',
    loop (attempt :: rest) last_error t
    = loop rest (Some (timeout_text log_prefix attempt)) t'
    /\ calls t' = S (calls t)
    /\ timeline t'
       = (timeline t ++ Called :: map Slept (backoff attempt))%list.
Proof.
  intros E S. exists (snd (body attempt last_error t)).
  destruct (body_gateway_timeout attempt last_error t r E S) as [F Sl].
  rewrite loop_cons, F. auto using body_one_call.
Qed.

Lemma loop_break (attempt : Z) (rest : list Z)
    (last_error e : option string) (t : list event) :
  fst (body attempt last_error t) = Break e
  /\ timeline (snd (body attempt last_error t))
     = (timeline t ++ [Called])%list ->
  exists t',
    loop (attempt :: rest) last_error t = (Fell_through e, t')
    /\ calls t' = S (calls t)
    /\ timeline t' = (timeline t ++ [Called])%list.
Proof.
  intros [F Sl]. exists (snd (body attempt last_error t)).
  rewrite loop_cons, F. auto using body_one_call.
Qed.

Lemma loop_return (attempt : Z) (rest : list Z)
    (last_error : option string) (result : value * value)
    (t : list event) :
  fst (body attempt last_error t) = Return_ result
  /\ timeline (snd (body attempt last_error t))
     = (timeline t ++ [Called])%list ->
  exists t',
    loop (attempt :: rest) last_error t = (Returned result, t')
    /\ calls t' = S (calls t)
    /\ timeline t' = (timeline t ++ [Called])%list.
Proof.
  intros [F Sl]. exists (snd (body attempt last_error t)).
  rewrite loop_cons, F. auto using body_one_call.
Qed.

(** What a turn returns is a parsed body with no error. *)
Lemma body_return_shape (attempt : Z) (last_error : option string)
    (t : list event) (result : value * value) :
  fst (body attempt last_error t) = Return_ result ->
  exists parsed, result = (parsed, VNone).
Proof.
  run_body.
  destruct (endpoint (calls t)) as [r|e]; [|discriminate].
  destruct (status_code r =? 504)%Z.
  - destruct (attempt <? MAX_RETRIES - 1)%Z; discriminate.
  - destruct (raise_for_status r); [discriminate|].
    destruct (json r) as [parsed|e]; [|discriminate].
    cbn [fst]. intros [= <-]. now exists parsed.
Qed.

Lemma loop_return_shape (todo : list Z) (last_error : option string)
    (t : list event) (result : value * value) :
  fst (loop todo last_error t) = Returned result ->
  exists parsed, result = (parsed, VNone).
Proof.
  revert last_error t; induction todo as [|a todo IH]; intros le t.
  - discriminate.
  - rewrite loop_cons.
    destruct (fst (body a le t)) as [r|e|e] eqn:B; cbn [fst].
    + intros [= <-]. exact (body_return_shape _ _ _ _ B).
    + discriminate.
    + apply IH.
Qed.

(** The loop issues at most one call per attempt it was given. *)
Lemma loop_calls (todo : list Z) (last_error : option string)
    (t : list event) :
  calls (snd (loop todo last_error t)) <= calls t + List.length todo.
Proof.
  revert last_error t; induction todo as [|a todo IH]; intros le t.
  - simpl. lia.
  - rewrite loop_cons. pose proof (body_one_call a le t) as C.
    destruct (fst (body a le t)); simpl; try lia.
    specialize (IH last_error (snd (body a le t))). lia.
Qed.

(** The loop takes no call back. *)
Lemma loop_calls_ge (todo : list Z) (last_error : option string)
    (t : list event) :
  calls t <= calls (snd (loop todo last_error t)).
Proof.
  revert last_error t; induction todo as [|a todo IH]; intros le t.
  - simpl. lia.
  - rewrite loop_cons. pose proof (body_one_call a le t) as C.
    destruct (fst (body a le t)) as [r|e|e]; simpl; try lia.
    specialize (IH e (snd (body a le t))). lia.
Qed.

(** As long as the answers are 504 and attempts are left, the loop goes
    on to the next call. *)
Lemma loop_reaches (todo : list Z) (last_error : option string)
    (t : list event) (i : nat) :
  i < List.length todo ->
  (forall j, j < i ->
     exists r, endpoint (calls t + j) = Returns r
               /\ status_code r = 504%Z) ->
  calls t + i < calls (snd (loop todo last_error t)).
Proof.
  revert last_error t i; induction todo as [|a todo IH]; intros le t i L A.
  - simpl in L. lia.
  - destruct i as [|i].
    + rewrite loop_cons. pose proof (body_one_call a le t) as C.
      destruct (fst (body a le t)) as [r|e|e]; simpl; try lia.
      pose proof (loop_calls_ge todo e (snd (body a le t))). lia.
    + destruct (A 0) as (r & E & G); [lia|].
      rewrite Nat.add_0_r in E.
      destruct (loop_gateway_timeout a todo le t r E G) as (t' & -> & C & _).
      simpl in L.
      specialize (IH (Some (timeout_text log_prefix a)) t' i).
      rewrite C in IH. rewrite Nat.add_succ_r. apply IH; [lia|].
      intros j J. destruct (A (1 + j)) as (rj & Ej & Gj); [lia|].
      exists rj. now rewrite Nat.add_succ_r in Ej.
Qed.

(** The call whose answer is no 504 and passes [raise_for_status] is the
    last one: its body is returned when it decodes, and its decoding error
    ends the loop when it does not. *)
Lemma loop_accepted_is_last (todo : list Z) (last_error : option string)
    (t : list event) (i : nat) (r : response) :
  calls t <= i < calls (snd (loop todo last_error t)) ->
  endpoint i = Returns r ->
  status_code r <> 504%Z ->
  raise_for_status r = None ->
  calls (snd (loop todo last_error t)) = S i
  /\ fst (loop todo last_error t)
     = match json r with
       | Returns parsed => Returned (parsed, VNone)
       | Raises e => Fell_through (Some (handler log_prefix e))
       end.
Proof.
  revert last_error t; induction todo as [|a todo IH]; intros le t I E S R.
  - simpl in I. lia.
  - rewrite loop_cons in *. pose proof (body_one_call a le t) as C.
    destruct (Nat.eq_dec i (calls t)) as [->|N].
    + destruct (body_accepted a le t r E S R) as [F _]. rewrite F.
      destruct (json r); cbn [fst snd]; auto.
    + destruct (fst (body a le t)) as [x|e|e]; cbn [fst snd] in *;
        try lia.
      apply IH; [lia | exact E | exact S | exact R].
Qed.

End Body.

Lemma raise_for_status_error (r : response) :
  (400 <= status_code r < 600)%Z -> exists e, raise_for_status r = Some e.
Proof.
  intros H. unfold raise_for_status.
  destruct (Z.leb_spec 400 (status_code r)),
           (Z.ltb_spec (status_code r) 500),
           (Z.leb_spec 500 (status_code r)),
           (Z.ltb_spec (status_code r) 600); cbn [andb]; eauto; lia.
Qed.

Lemma raise_for_status_2xx (r : response) :
  (200 <= status_code r < 300)%Z -> raise_for_status r = None.
Proof.
  intros H. unfold raise_for_status.
  destruct (Z.leb_spec 400 (status_code r)),
           (Z.ltb_spec (status_code r) 500),
           (Z.leb_spec 500 (status_code r)),
           (Z.ltb_spec (status_code r) 600); cbn [andb]; eauto; lia.
Qed.

Lemma raise_for_status_accepts (r : response) :
  ~ (400 <= status_code r < 600)%Z -> raise_for_status r = None.
Proof.
  intros H. unfold raise_for_status.
  destruct (Z.leb_spec 400 (status_code r)),
           (Z.ltb_spec (status_code r) 500),
           (Z.leb_spec 500 (status_code r)),
           (Z.ltb_spec (status_code r) 600); cbn [andb]; eauto; lia.
Qed.

End LoopFacts.

(** ** One call of [execute_code] *)

Module RunFacts.
Import Str StrFacts ExtractFacts LoopFacts.

Lemma str_in_In (x : string) (xs : list string) :
  str_in x xs = true <-> In x xs.
Proof.
  unfold str_in. rewrite existsb_exists. split.
  - intros [y [I E]]. apply String.eqb_eq in E. now subst.
  - intros I. exists x. split; [exact I | apply String.eqb_refl].
Qed.

Lemma str_in_not_In (x : string) (xs : list string) :
  ~ In x xs -> str_in x xs = false.
Proof.
  intros N. destruct (str_in x xs) eqn:E; [|reflexivity].
  now apply str_in_In in E.
Qed.

(** Every completion with a fence yields some code. *)
Lemma extract_code_fence (completion : string) :
  contains fence completion = true ->
  exists code, extract_code completion = Code code.
Proof.
  intros H. unfold extract_code. rewrite H.
  destruct (contains python_fence completion); [eauto|].
  destruct (2 <=? _)%nat; [|eauto].
  destruct (contains LF _); [|eauto].
  destruct (splitn 1 LF _) as [|a [|b [|c l]]]; eauto.
  destruct (isalpha (strip a)); eauto.
Qed.

(** The recorded gateway timeout of the third attempt, behind the prefix of
    the call, loses that prefix, whatever the identifier is. *)
Lemma failure_text_timeout (uuid4 : string) :
  failure_text (log_prefix_of uuid4)
    (Some (timeout_text (log_prefix_of uuid4) 2))
  = timeout_exhausted_text.
Proof.
  change (failure_text (log_prefix_of uuid4)
            (Some (timeout_text (log_prefix_of uuid4) 2)))
    with (replace (log_prefix_of uuid4) "API Call Failed: "
            (log_prefix_of uuid4
             ++ "API Request Error: Gateway Timeout (504) on attempt 3/3")).
  rewrite replace_own_prefix; [reflexivity | discriminate | reflexivity].
Qed.

Section Run.

Variable endpoint : nat -> outcome response.
Variable uuid4 : string.
Variables (completion : string) (stdin : option string).
Variables (compile_timeout run_timeout memory_limit_mb : Z).
Variable language : string.

Local Abbreviation outcome_of_run :=
  (run endpoint uuid4 completion stdin compile_timeout run_timeout
     memory_limit_mb language).

Local Abbreviation loop := (for_attempts endpoint (log_prefix_of uuid4)).

Lemma run_missing :
  extract_code completion = Missing_code_block ->
  outcome_of_run = (missing_code_block_result, []).
Proof.
  intros E. unfold run, execute_code. now rewrite E.
Qed.

Lemma run_unsupported (code : string) :
  extract_code completion = Code code ->
  str_in language SUPPORTED_LANGUAGES = false ->
  outcome_of_run
  = ((VNone,
      VStr (log_prefix_of uuid4 ++ "Unsupported language: " ++ language)),
     [Log ERROR
        (log_prefix_of uuid4 ++ "Unsupported language: " ++ language)]).
Proof.
  intros E U. unfold run, execute_code. now rewrite E, U.
Qed.

Lemma run_supported (code : string) :
  extract_code completion = Code code ->
  str_in language SUPPORTED_LANGUAGES = true ->
  outcome_of_run
  = match loop (request_payload code stdin compile_timeout run_timeout
                  memory_limit_mb language)
            (compile_timeout + run_timeout + API_TIMEOUT)%Z
            (range MAX_RETRIES) None [] with
    | (Returned r, t) => (r, t)
    | (Fell_through last_error, t) =>
        ((VNone, VStr (failure_text (log_prefix_of uuid4) last_error)),
         (t ++ [Log ERROR
                  (log_prefix_of uuid4
                   ++ "Sandbox API call failed. Last error: "
                   ++ str_of_option last_error)])%list)
    end.
Proof.
  intros E U. unfold run, execute_code.
  rewrite E, U. cbn [negb]. unfold bind at 1.
  destruct (for_attempts _ _ _ _ _ _ _) as [[r|e] t]; reflexivity.
Qed.

(** With a code block in the completion, the returned pair is an error
    text behind [None], or a parsed body before [None]. *)
Lemma run_pair_shape :
  contains fence completion = true ->
  (exists text, fst outcome_of_run = (VNone, VStr text))
  \/ (exists parsed, fst outcome_of_run = (parsed, VNone)).
Proof.
  intros F. destruct (extract_code_fence _ F) as [code X].
  destruct (str_in language SUPPORTED_LANGUAGES) eqn:L.
  - rewrite (run_supported code X L).
    destruct (loop _ _ _ _ _) as [[r|e] t] eqn:E.
    + right. apply (f_equal fst) in E.
      destruct (loop_return_shape _ _ _ _ _ _ _ _ E) as [parsed ->].
      now exists parsed.
    + left. eexists; reflexivity.
  - rewrite (run_unsupported code X L). left. eexists; reflexivity.
Qed.

End Run.

End RunFacts.

(** * The claims *)

Import Str StrFacts ExtractFacts LoopFacts RunFacts.

(** C10. For all integers [a] and [b], [do_math(a, b, "sum")] returns
    ["Error: Unknown operation"] and not the sum, although the tool schema
    lists ["sum"] among the operations. *)
Theorem do_math_sum_is_unknown (int_max_str_digits : nat)
    (digits_error : exn) (str_of_quotient : Z -> Z -> outcome string)
    (a b : Z) :
  do_math int_max_str_digits digits_error str_of_quotient a b "sum"
  = Returns "Error: Unknown operation"
  /\ do_math int_max_str_digits digits_error str_of_quotient a b "sum"
     <> Returns ("The result is " ++ Str.of_int (a + b))
  /\ In "sum" do_math_operation_enum.
Proof.
  split; [reflexivity|]. split; [discriminate|]. now left.
Qed.

(** C3. A completion without any fence marker fails with the
    missing-code-block error whatever the other inputs, the endpoint and the
    identifier are: nothing is logged, no request is built, no call is
    made. *)
Theorem no_fence_fails_without_call (endpoint : nat -> outcome response)
    (uuid4 completion : string) (stdin : option string)
    (compile_timeout run_timeout memory_limit_mb : Z) (language : string) :
  contains fence completion = false ->
  run endpoint uuid4 completion stdin compile_timeout run_timeout
    memory_limit_mb language
  = (missing_code_block_result, []).
Proof.
  intros F. apply run_missing. now apply extract_code_no_fence.
Qed.

Lemma no_fence_fails_without_call_witness :
  contains fence plain_completion = false
  /\ run healthy_endpoint sample_uuid plain_completion (Some "") 10 5 128
       "python"
     = (missing_code_block_result, []).
Proof.
  split; [reflexivity|].
  apply (no_fence_fails_without_call healthy_endpoint sample_uuid
           plain_completion (Some "") 10 5 128 "python").
  reflexivity.
Defined.

(** C4. A language outside [SUPPORTED_LANGUAGES] makes [execute_code] return
    an error without any outbound call, whatever the other inputs are: the
    unsupported-language error, or the missing-code-block error when the
    completion has no fence. *)
Theorem unsupported_language_fails_without_call
    (endpoint : nat -> outcome response)
    (uuid4 completion : string) (stdin : option string)
    (compile_timeout run_timeout memory_limit_mb : Z) (language : string) :
  ~ In language SUPPORTED_LANGUAGES ->
  let call := run endpoint uuid4 completion stdin compile_timeout run_timeout
                memory_limit_mb language in
  posts (snd call) = []
  /\ snd (fst call) <> VNone
  /\ (fst call
      = (VNone,
         VStr (log_prefix_of uuid4 ++ "Unsupported language: " ++ language))
      \/ fst call = missing_code_block_result).
Proof.
  intros N call. apply str_in_not_In in N.
  destruct (extract_code completion) as [code|] eqn:X.
  - unfold call. rewrite (run_unsupported _ _ _ _ _ _ _ _ code X N).
    cbn. repeat split; [discriminate | now left].
  - unfold call. rewrite (run_missing _ _ _ _ _ _ _ _ X).
    cbn. repeat split; [discriminate | now right].
Qed.

Lemma unsupported_language_fails_without_call_witness :
  ~ In "brainfuck" SUPPORTED_LANGUAGES
  /\ let call := run healthy_endpoint sample_uuid python_completion (Some "")
                   10 5 128 "brainfuck" in
     posts (snd call) = []
     /\ snd (fst call) <> VNone
     /\ (fst call
         = (VNone,
            VStr (log_prefix_of sample_uuid ++ "Unsupported language: "
                  ++ "brainfuck"))
         \/ fst call = missing_code_block_result).
Proof.
  assert (N : ~ In "brainfuck" SUPPORTED_LANGUAGES).
  { intros I. apply str_in_In in I. discriminate I. }
  split; [exact N|].
  exact (unsupported_language_fails_without_call healthy_endpoint sample_uuid
           python_completion (Some "") 10 5 128 "brainfuck" N).
Defined.

(** C2, as amended. For a completion with a [```python] fence, the code
    extracted is the text strictly between the last occurrence of that fence
    and the next bare fence behind it, or the end of the completion when no
    bare fence follows. *)
Theorem extract_code_takes_last_python_block (completion : string) :
  contains python_fence completion = true ->
  exists code,
    last_python_block completion = Some code
    /\ extract_code completion = Code code.
Proof.
  intros H. destruct (contains_rfind _ _ H) as [i R].
  exists (up_to_next_fence
            (drop (i + String.length python_fence) completion)).
  split.
  - unfold last_python_block, after_last_python_fence. now rewrite R.
  - now apply extract_code_python_fence.
Qed.

Lemma extract_code_takes_last_python_block_witness :
  contains python_fence two_python_blocks = true
  /\ exists code,
       last_python_block two_python_blocks = Some code
       /\ extract_code two_python_blocks = Code code.
Proof.
  split; [reflexivity|].
  apply (extract_code_takes_last_python_block two_python_blocks).
  reflexivity.
Defined.

(** C2, as stated, fails: with two tagged blocks the text between the first
    tagged fence and the next bare fence is the first block, and the code
    extracted is the second. *)
Lemma first_python_block_is_not_extracted :
  contains python_fence two_python_blocks = true
  /\ first_python_block two_python_blocks = Some (LF ++ "A" ++ LF)
  /\ extract_code two_python_blocks = Code (LF ++ "B" ++ LF)
  /\ ~ (forall code, first_python_block two_python_blocks = Some code ->
                     extract_code two_python_blocks = Code code).
Proof.
  repeat split; try reflexivity.
  intros H. specialize (H _ eq_refl). discriminate H.
Qed.

(** C8, as amended. In a completion without a [```python] fence, when the
    text that stands on the line of the first fence, right behind it, is
    one alphabetic token (the first fenced segment up to its first newline,
    stripped of white space, is alphabetic), that line is taken for a
    language tag: the code extracted is what follows the line's newline. *)
Theorem extract_code_strips_language_line
    (completion first_line rest : string) :
  contains python_fence completion = false ->
  first_fenced_segment completion = Some (first_line ++ LF ++ rest) ->
  contains LF first_line = false ->
  isalpha (strip first_line) = true ->
  extract_code completion = Code rest.
Proof.
  intros P S N A. unfold first_fenced_segment in S.
  destruct (find fence completion) as [i|] eqn:F; [|discriminate].
  injection S as S.
  destruct (split_fence_parts _ _ F) as [L C].
  assert (C' : nth 1 (split fence completion) "" = first_line ++ LF ++ rest)
    by (rewrite C; exact S).
  destruct (split_first_line first_line rest N) as [HL HS].
  unfold extract_code. rewrite P. unfold contains at 1. rewrite F, L, C'.
  now rewrite HL, HS, A.
Qed.

Lemma extract_code_strips_language_line_witness :
  contains python_fence bare_completion = false
  /\ first_fenced_segment bare_completion
     = Some ("js" ++ LF ++ ("console.log(1)" ++ LF))
  /\ contains LF "js" = false
  /\ isalpha (strip "js") = true
  /\ extract_code bare_completion = Code ("console.log(1)" ++ LF).
Proof.
  do 4 (split; [reflexivity|]).
  apply (extract_code_strips_language_line bare_completion "js"
           ("console.log(1)" ++ LF)); reflexivity.
Defined.

(** C8, as stated, fails: behind a fence with no tag on it the fenced
    segment starts with the newline of the fence's line, so its first line is
    empty; the alphabetic token on the line below, the first fenced line, is
    kept in the extracted code. *)
Lemma token_below_bare_fence_is_kept :
  let code := LF ++ "js" ++ LF ++ "console.log(1)" ++ LF in
  contains python_fence tagless_completion = false
  /\ first_fenced_segment tagless_completion = Some code
  /\ first_line_of code = Some ""
  /\ nth 1 (split LF code) "" = "js"
  /\ isalpha (strip "js") = true
  /\ extract_code tagless_completion = Code code
  /\ extract_code tagless_completion <> Code ("console.log(1)" ++ LF)
  /\ In "js" (split LF code).
Proof.
  repeat split; try reflexivity.
  - discriminate.
  - right. left. reflexivity.
Qed.

Section Calls.

Variable endpoint : nat -> outcome response.
Variable uuid4 : string.
Variables (completion : string) (stdin : option string).
Variables (compile_timeout run_timeout memory_limit_mb : Z).
Variable language : string.

Local Abbreviation call :=
  (run endpoint uuid4 completion stdin compile_timeout run_timeout
     memory_limit_mb language).

Hypothesis fenced : contains fence completion = true.
Hypothesis supported : In language SUPPORTED_LANGUAGES.

(** With a code block and a supported language, the call is the retry
    loop over the attempts 0, 1, 2, followed by the final error when the
    loop returned nothing. *)
Lemma call_is_loop :
  exists code,
    call
    = match for_attempts endpoint (log_prefix_of uuid4)
              (request_payload code stdin compile_timeout run_timeout
                 memory_limit_mb language)
              (compile_timeout + run_timeout + API_TIMEOUT)%Z
              [0; 1; 2]%Z None [] with
      | (Returned r, t) => (r, t)
      | (Fell_through last_error, t) =>
          ((VNone, VStr (failure_text (log_prefix_of uuid4) last_error)),
           (t ++ [Log ERROR
                    (log_prefix_of uuid4
                     ++ "Sandbox API call failed. Last error: "
                     ++ str_of_option last_error)])%list)
      end.
Proof.
  destruct (extract_code_fence _ fenced) as [code X]. exists code.
  apply str_in_In in supported.
  exact (run_supported _ _ _ _ _ _ _ _ code X supported).
Qed.

(** C5. When the endpoint answers 504 to the first two attempts and 200
    with a JSON body to the third, the call returns the parsed body and no
    error, after exactly three outbound calls and two sleeps, of
    [INITIAL_RETRY_DELAY * (attempt + 1)] seconds: 1, then 2. *)
Theorem two_gateway_timeouts_then_success (r0 r1 r2 : response)
    (parsed : value) :
  endpoint 0 = Returns r0 -> status_code r0 = 504%Z ->
  endpoint 1 = Returns r1 -> status_code r1 = 504%Z ->
  endpoint 2 = Returns r2 -> status_code r2 = 200%Z ->
  json r2 = Returns parsed ->
  fst call = (parsed, VNone)
  /\ calls (snd call) = 3
  /\ timeline (snd call)
     = [Called; Slept (INITIAL_RETRY_DELAY * (0 + 1)); Called;
        Slept (INITIAL_RETRY_DELAY * (1 + 1)); Called]
  /\ timeline (snd call) = [Called; Slept 1; Called; Slept 2; Called].
Proof.
  intros E0 S0 E1 S1 E2 S2 J.
  destruct call_is_loop as [code ->].
  edestruct (loop_gateway_timeout endpoint) as (t1 & -> & C1 & Sl1);
    [exact E0 | exact S0 |].
  edestruct (loop_gateway_timeout endpoint) as (t2 & -> & C2 & Sl2);
    [rewrite C1; exact E1 | exact S1 |].
  edestruct (loop_return endpoint) as (t3 & -> & C3 & Sl3).
  { apply body_success with (r := r2); [| | | exact J].
    - rewrite C2, C1. exact E2.
    - rewrite S2. discriminate.
    - apply raise_for_status_2xx. rewrite S2. lia. }
  cbn [fst snd]. rewrite C3, C2, C1, Sl3, Sl2, Sl1. auto.
Qed.

(** The call, as far as its result and its outbound calls go, is the
    loop over the three attempts. *)
Lemma call_of_loop :
  exists code,
    let l := for_attempts endpoint (log_prefix_of uuid4)
               (request_payload code stdin compile_timeout run_timeout
                  memory_limit_mb language)
               (compile_timeout + run_timeout + API_TIMEOUT)%Z
               [0; 1; 2]%Z None [] in
    calls (snd call) = calls (snd l)
    /\ timeline (snd call) = timeline (snd l)
    /\ (forall result, fst l = Returned result -> fst call = result)
    /\ (forall e, fst l = Fell_through e ->
          fst call = (VNone, VStr (failure_text (log_prefix_of uuid4) e))).
Proof.
  destruct call_is_loop as [code ->]. exists code.
  destruct (for_attempts _ _ _ _ _ _ _) as [[result|e] t'];
    cbn [fst snd]; autorewrite with trace;
    repeat split; intros ? [= <-]; reflexivity.
Qed.

(** When the first attempt fails with anything but a gateway timeout, the
    call returns an error after one outbound call, without a sleep. *)
Lemma terminal_failure_ends_the_call :
  terminal_failure (endpoint 0) ->
  exists text,
    fst call = (VNone, VStr text)
    /\ calls (snd call) = 1
    /\ timeline (snd call) = [Called].
Proof.
  intros T. destruct call_is_loop as [code ->].
  assert (B : exists e t',
             for_attempts endpoint (log_prefix_of uuid4)
               (request_payload code stdin compile_timeout run_timeout
                  memory_limit_mb language)
               (compile_timeout + run_timeout + API_TIMEOUT)%Z
               [0; 1; 2]%Z None []
             = (Fell_through e, t')
             /\ calls t' = 1 /\ timeline t' = [Called]).
  { inversion T as [e E | r R N E | r e R J E]; symmetry in E.
    - edestruct (loop_break endpoint) as (t' & L & C & Sl);
        [apply body_raises with (t := []); exact E | eauto].
    - destruct (raise_for_status_error r R) as [e' RS].
      edestruct (loop_break endpoint) as (t' & L & C & Sl);
        [apply body_http_error with (t := []) (r := r); eassumption
        | eauto].
    - edestruct (loop_break endpoint) as (t' & L & C & Sl);
        [apply body_undecodable with (t := []) (r := r);
         [exact E | lia | now apply raise_for_status_accepts | exact J]
        | eauto]. }
  destruct B as (e & t' & -> & C & Sl).
  eexists. cbn [fst snd]. autorewrite with trace. auto.
Qed.

(** A call that returned an error after one outbound call met such a
    failure on its first attempt. *)
Lemma one_call_error_is_terminal (text : string) :
  fst call = (VNone, VStr text) ->
  calls (snd call) = 1 ->
  terminal_failure (endpoint 0).
Proof.
  intros R C. destruct call_of_loop as (code & Cl & _ & Ret & _).
  cbv zeta in Cl, Ret. rewrite C in Cl.
  destruct (endpoint 0) as [r|e] eqn:E; [|constructor].
  destruct (Z.eq_dec (status_code r) 504) as [G|N].
  - exfalso.
    match type of Cl with
    | _ = calls (snd (for_attempts ?e ?lp ?p ?tmo ?todo ?le ?t)) =>
        pose proof (loop_reaches e lp p tmo todo le t 1) as Reach
    end.
    rewrite <- Cl in Reach. cbn in Reach.
    assert (1 < 1); [|lia]. apply Reach; [lia|].
    intros j J. assert (j = 0) as -> by lia. now exists r.
  - destruct (Z_le_dec 400 (status_code r)) as [Lo|Lo],
             (Z_lt_dec (status_code r) 600) as [Hi|Hi];
      try (destruct (json r) as [parsed|e] eqn:J;
           [|apply malformed_body with (e := e); [lia | exact J]]).
    1: { apply error_status; [lia | exact N]. }
    all: exfalso;
      match type of Cl with
      | _ = calls (snd (for_attempts ?e ?lp ?p ?tmo ?todo ?le ?t)) =>
          destruct (loop_accepted_is_last e lp p tmo todo le t 0 r)
            as [_ F];
          [ rewrite <- Cl; cbn; lia | exact E | exact N
          | apply raise_for_status_accepts; lia | ]
      end;
      rewrite J in F; rewrite (Ret _ F) in R; discriminate R.
Qed.

(** X18. The call returns an error after exactly one outbound call, without
    a retry and without a sleep, exactly when its first attempt fails with
    anything but a gateway timeout: an exception raised by the call, a 4xx
    or 5xx status other than 504, or an answer with any other status whose
    body does not decode. *)
Theorem terminal_failure_is_not_retried :
  (terminal_failure (endpoint 0) ->
   exists text,
     fst call = (VNone, VStr text)
     /\ calls (snd call) = 1
     /\ timeline (snd call) = [Called])
  /\ (forall text,
        fst call = (VNone, VStr text) -> calls (snd call) = 1 ->
        terminal_failure (endpoint 0)).
Proof.
  split.
  - apply terminal_failure_ends_the_call.
  - apply one_call_error_is_terminal.
Qed.

(** While the answers are 504 and an attempt is left, the next call is
    made. *)
Lemma gateway_timeouts_reach (i : nat) :
  i < 3 ->
  (forall j, j < i ->
     exists r, endpoint j = Returns r /\ status_code r = 504%Z) ->
  i < calls (snd call).
Proof.
  intros I A. destruct call_of_loop as (code & -> & _).
  match goal with
  | |- _ < calls (snd (for_attempts ?e ?lp ?p ?tmo ?todo ?le ?t)) =>
      apply (loop_reaches e lp p tmo todo le t i)
  end; [exact I | exact A].
Qed.

(** 504 on every attempt: three calls, and the error of the third one. *)
Lemma gateway_timeouts_exhaust_the_attempts :
  (forall k, exists r, endpoint k = Returns r /\ status_code r = 504%Z) ->
  calls (snd call) = 3
  /\ fst call = (VNone, VStr timeout_exhausted_text).
Proof.
  intros A. destruct call_is_loop as [code ->].
  destruct (A 0) as (r0 & E0 & S0), (A 1) as (r1 & E1 & S1),
           (A 2) as (r2 & E2 & S2).
  edestruct (loop_gateway_timeout endpoint) as (t1 & -> & C1 & Sl1);
    [exact E0 | exact S0 |].
  edestruct (loop_gateway_timeout endpoint) as (t2 & -> & C2 & Sl2);
    [rewrite C1; exact E1 | exact S1 |].
  edestruct (loop_gateway_timeout endpoint) as (t3 & -> & C3 & Sl3);
    [rewrite C2, C1; exact E2 | exact S2 |].
  cbn [for_attempts ret fst snd]. autorewrite with trace.
  rewrite C3, C2, C1. split; [reflexivity|].
  now rewrite failure_text_timeout.
Qed.

End Calls.

Lemma two_gateway_timeouts_then_success_witness :
  let call := run recovering_endpoint sample_uuid python_completion (Some "")
                10 5 128 "python" in
  fst call = (sample_result, VNone)
  /\ calls (snd call) = 3
  /\ timeline (snd call)
     = [Called; Slept (INITIAL_RETRY_DELAY * (0 + 1)); Called;
        Slept (INITIAL_RETRY_DELAY * (1 + 1)); Called]
  /\ timeline (snd call) = [Called; Slept 1; Called; Slept 2; Called].
Proof.
  refine (two_gateway_timeouts_then_success recovering_endpoint sample_uuid
            python_completion (Some "") 10 5 128 "python" _ _
            _ _ _ sample_result eq_refl eq_refl eq_refl eq_refl eq_refl
            eq_refl eq_refl).
  - reflexivity.
  - apply str_in_In. reflexivity.
Defined.

Lemma terminal_failure_is_not_retried_witness :
  let call endpoint :=
    run endpoint sample_uuid python_completion (Some "") 10 5 128 "python" in
  (exists text,
      fst (call broken_endpoint) = (VNone, VStr text)
      /\ calls (snd (call broken_endpoint)) = 1
      /\ timeline (snd (call broken_endpoint)) = [Called])
  /\ (exists text,
        fst (call not_modified_endpoint) = (VNone, VStr text)
        /\ calls (snd (call not_modified_endpoint)) = 1
        /\ timeline (snd (call not_modified_endpoint)) = [Called])
  /\ terminal_failure (garbled_endpoint 0).
Proof.
  assert (F : contains fence python_completion = true) by reflexivity.
  assert (L : In "python" SUPPORTED_LANGUAGES)
    by (apply str_in_In; reflexivity).
  split; [|split].
  - apply (terminal_failure_is_not_retried broken_endpoint sample_uuid
             python_completion (Some "") 10 5 128 "python" F L).
    apply error_status; cbn; [lia | discriminate].
  - apply (terminal_failure_is_not_retried not_modified_endpoint sample_uuid
             python_completion (Some "") 10 5 128 "python" F L).
    apply malformed_body with (e := decode_error); cbn; [lia | reflexivity].
  - apply (terminal_failure_is_not_retried garbled_endpoint sample_uuid
             python_completion (Some "") 10 5 128 "python" F L)
      with (text := "API Call Failed: API Request Error: "
                    ++ "Expecting value: line 1 column 1 (char 0)");
      reflexivity.
Defined.

(** C6, at the input where it fails. A 300 answer with a JSON body, which
    is neither a 2xx nor a 504 answer, is decoded and returned as a success:
    the call returns no error. *)
Theorem non_2xx_answer_can_succeed :
  let call := run multiple_choices_endpoint sample_uuid python_completion
                (Some "") 10 5 128 "python" in
  (exists r, multiple_choices_endpoint 0 = Returns r
             /\ ~ (200 <= status_code r < 300)%Z
             /\ status_code r <> 504%Z)
  /\ fst call = (VDict [], VNone)
  /\ calls (snd call) = 1
  /\ ~ (exists text, fst call = (VNone, VStr text)).
Proof.
  split; [|split; [|split]].
  - eexists. split; [reflexivity|]. cbn. split; [lia | discriminate].
  - reflexivity.
  - reflexivity.
  - intros [text H]. discriminate H.
Qed.

(** The call never issues more outbound calls than [MAX_RETRIES]. *)
Lemma call_at_most_three (endpoint : nat -> outcome response)
    (uuid4 completion : string) (stdin : option string)
    (compile_timeout run_timeout memory_limit_mb : Z) (language : string) :
  calls (snd (run endpoint uuid4 completion stdin compile_timeout run_timeout
                memory_limit_mb language)) <= 3.
Proof.
  destruct (extract_code completion) as [code|] eqn:X.
  - destruct (str_in language SUPPORTED_LANGUAGES) eqn:L.
    + rewrite (run_supported _ _ _ _ _ _ _ _ code X L).
      match goal with
      | |- context [for_attempts ?e ?lp ?p ?tmo ?todo ?le ?t] =>
          pose proof (loop_calls e lp p tmo todo le t) as B;
          destruct (for_attempts e lp p tmo todo le t) as [[r|e'] t']
      end; cbn [fst snd] in *; autorewrite with trace;
        change (List.length (range MAX_RETRIES)) with 3 in B;
        change (calls []) with 0 in B; lia.
    + rewrite (run_unsupported _ _ _ _ _ _ _ _ code X L).
      unfold calls; cbn; lia.
  - rewrite (run_missing _ _ _ _ _ _ _ _ X). unfold calls; cbn; lia.
Qed.

(** The answer with a 2xx status to an outbound call that was made is
    final: no further call follows it, and its body is returned when it
    decodes. *)
Lemma a_2xx_answer_is_the_last (endpoint : nat -> outcome response)
    (uuid4 completion : string) (stdin : option string)
    (compile_timeout run_timeout memory_limit_mb : Z) (language : string)
    (i : nat) (r : response) :
  let call := run endpoint uuid4 completion stdin compile_timeout run_timeout
                memory_limit_mb language in
  i < calls (snd call) ->
  endpoint i = Returns r ->
  (200 <= status_code r < 300)%Z ->
  calls (snd call) = S i
  /\ forall parsed, json r = Returns parsed -> fst call = (parsed, VNone).
Proof.
  intros call. unfold call. clear call.
  destruct (extract_code completion) as [code|] eqn:X.
  - destruct (str_in language SUPPORTED_LANGUAGES) eqn:L.
    + rewrite (run_supported _ _ _ _ _ _ _ _ code X L).
      match goal with
      | |- context [for_attempts ?e ?lp ?p ?tmo ?todo ?le ?t] =>
          pose proof (loop_accepted_is_last e lp p tmo todo le t i r) as A;
          destruct (for_attempts e lp p tmo todo le t) as [[result|e'] t']
      end; cbn [fst snd] in *; autorewrite with trace; intros I E S;
        (destruct A as [C F];
         [ change (calls []) with 0; lia | exact E | lia
         | now apply raise_for_status_2xx | ]);
        (split; [exact C|]); intros parsed J; rewrite J in F;
        [now injection F as <- | discriminate F].
    + rewrite (run_unsupported _ _ _ _ _ _ _ _ code X L).
      unfold calls; cbn. lia.
  - rewrite (run_missing _ _ _ _ _ _ _ _ X). unfold calls; cbn. lia.
Qed.

(** C7. Every turn of the retry loop issues one outbound call, and a call
    of [execute_code] at most three. The first answer with a 2xx status
    ends the call: no outbound call follows the one it answers, and its
    body is returned when it decodes; so after [i] answers of 504, a 2xx
    answer to attempt [i + 1] ends the call after [i + 1] outbound calls.
    When every attempt is answered by 504, the error returned after exactly
    three outbound calls is the gateway timeout of attempt 3/3. *)
Theorem at_most_three_attempts (endpoint : nat -> outcome response)
    (uuid4 completion : string) (stdin : option string)
    (compile_timeout run_timeout memory_limit_mb : Z) (language : string) :
  let call := run endpoint uuid4 completion stdin compile_timeout run_timeout
                memory_limit_mb language in
  (forall log_prefix payload request_timeout attempt last_error t,
      calls (snd (attempt_body endpoint log_prefix payload request_timeout
                    attempt last_error t))
      = S (calls t))
  /\ calls (snd call) <= 3
  /\ (forall i r,
        i < calls (snd call) ->
        endpoint i = Returns r -> (200 <= status_code r < 300)%Z ->
        calls (snd call) = S i
        /\ forall parsed,
             json r = Returns parsed -> fst call = (parsed, VNone))
  /\ (contains fence completion = true ->
      In language SUPPORTED_LANGUAGES ->
      (forall i r,
          i < 3 ->
          (forall j, j < i ->
             exists rj, endpoint j = Returns rj
                        /\ status_code rj = 504%Z) ->
          endpoint i = Returns r -> (200 <= status_code r < 300)%Z ->
          calls (snd call) = S i
          /\ forall parsed,
               json r = Returns parsed -> fst call = (parsed, VNone))
      /\ ((forall k, exists r,
              endpoint k = Returns r /\ status_code r = 504%Z) ->
          calls (snd call) = 3
          /\ fst call = (VNone, VStr timeout_exhausted_text))).
Proof.
  intros call. split; [|split; [|split]].
  - intros. apply body_one_call.
  - apply call_at_most_three.
  - intros i r. apply a_2xx_answer_is_the_last.
  - intros F L. split.
    + intros i r I A. apply a_2xx_answer_is_the_last.
      now apply gateway_timeouts_reach.
    + now apply gateway_timeouts_exhaust_the_attempts.
Qed.

Lemma at_most_three_attempts_witness :
  let call endpoint :=
    run endpoint sample_uuid python_completion (Some "") 10 5 128 "python" in
  (calls (snd (call healthy_endpoint)) = 1
   /\ fst (call healthy_endpoint) = (sample_result, VNone))
  /\ (calls (snd (call recovering_endpoint)) = 3
      /\ fst (call recovering_endpoint) = (sample_result, VNone))
  /\ (calls (snd (call garbled_endpoint)) = 1)
  /\ (calls (snd (call timing_out_endpoint)) = 3
      /\ fst (call timing_out_endpoint)
         = (VNone, VStr timeout_exhausted_text)).
Proof.
  assert (F : contains fence python_completion = true) by reflexivity.
  assert (L : In "python" SUPPORTED_LANGUAGES)
    by (apply str_in_In; reflexivity).
  assert (G : forall j, j < 2 ->
              exists rj, recovering_endpoint j = Returns rj
                         /\ status_code rj = 504%Z).
  { intros j J. destruct j as [|[|j]]; [| |lia];
      (eexists; split; reflexivity). }
  split; [|split; [|split]].
  - destruct (at_most_three_attempts healthy_endpoint sample_uuid
                python_completion (Some "") 10 5 128 "python")
      as (_ & _ & _ & H).
    destruct (H F L) as [H2 _].
    destruct (H2 0 _ ltac:(lia) ltac:(lia) eq_refl) as [C R]; [cbn; lia|].
    split; [exact C | exact (R _ eq_refl)].
  - destruct (at_most_three_attempts recovering_endpoint sample_uuid
                python_completion (Some "") 10 5 128 "python")
      as (_ & _ & _ & H).
    destruct (H F L) as [H2 _].
    destruct (H2 2 _ ltac:(lia) G eq_refl) as [C R]; [cbn; lia|].
    split; [exact C | exact (R _ eq_refl)].
  - destruct (at_most_three_attempts garbled_endpoint sample_uuid
                python_completion (Some "") 10 5 128 "python")
      as (_ & _ & H & _).
    destruct (H 0 _ ltac:(vm_compute; lia) eq_refl) as [C _]; [cbn; lia|].
    exact C.
  - destruct (at_most_three_attempts timing_out_endpoint sample_uuid
                python_completion (Some "") 10 5 128 "python")
      as (_ & _ & _ & H).
    destruct (H F L) as [_ H5]. apply H5.
    intros k. eexists. split; reflexivity.
Defined.

(** C1, at the input where it fails. For a completion without a fence the
    pair returned is [0.0] and a list holding a dict: no half is [None], and
    the second half is not a string. *)
Theorem missing_code_block_pair_has_two_halves :
  let result := fst (run healthy_endpoint sample_uuid plain_completion
                       (Some "") 10 5 128 "python") in
  result
  = (VFloat (S754_zero false),
     VList [VDict [("error",
                    VStr "Invalid completion (missing code block)")]])
  /\ fst result <> VNone
  /\ snd result <> VNone
  /\ forall text, snd result <> VStr text.
Proof.
  cbn. repeat split; discriminate.
Qed.

(** C9, at the input where it fails. For an unsupported language the error
    returned holds the identifier of the call, so two calls that differ in
    nothing but the identifier drawn return different pairs. *)
Theorem unsupported_language_error_holds_request_id :
  let call id := fst (run healthy_endpoint id python_completion (Some "")
                        10 5 128 "brainfuck") in
  call sample_uuid
  = (VNone,
     VStr ("[Request ID: 7d9f2c1e-4b5a-4c3d-9e8f-0a1b2c3d4e5f] "
           ++ "Unsupported language: brainfuck"))
  /\ (exists text, snd (call sample_uuid) = VStr text
                   /\ contains sample_uuid text = true)
  /\ call sample_uuid <> call other_uuid.
Proof.
  split; [reflexivity|]. split.
  - eexists. split; reflexivity.
  - discriminate.
Qed.

(** * Further properties of [do_math] and of the extraction *)

(** [str] of an integer determines the integer. *)
Lemma of_int_inj (x y : Z) : Str.of_int x = Str.of_int y -> x = y.
Proof.
  unfold Str.of_int. intros H. apply DecimalZ.to_int_inj.
  assert (P : forall z, Z.to_int z <> Decimal.Pos Decimal.Nil
                        /\ Z.to_int z <> Decimal.Neg Decimal.Nil).
  { intros z. split; intros E; pose proof (f_equal Z.of_int E) as E';
      rewrite DecimalZ.of_to in E'; cbn in E'; subst z; discriminate E. }
  destruct (P x) as [Px Nx], (P y) as [Py Ny].
  pose proof (NilZero.isi _ Px Nx) as Ix.
  pose proof (NilZero.isi _ Py Ny) as Iy.
  rewrite H in Ix. congruence.
Qed.

Section DoMathFacts.

Variable int_max_str_digits : nat.
Variable digits_error : exn.
Variable str_of_quotient : Z -> Z -> outcome string.

Lemma the_result_is_no_error (text : outcome string) (reply : string) :
  String.prefix "Error" reply = true ->
  the_result_is text <> Returns reply.
Proof.
  intros P. destruct text as [t|e]; [|discriminate].
  intros [= <-]. discriminate P.
Qed.

(** X1. [do_math] answers "Error: Unknown operation" exactly for the
    operations other than "subtract", "multiply" and "divide". *)
Theorem do_math_unknown_iff (a b : Z) (operation : string) :
  do_math int_max_str_digits digits_error str_of_quotient a b operation
  = Returns "Error: Unknown operation"
  <-> operation <> "subtract" /\ operation <> "multiply"
      /\ operation <> "divide".
Proof.
  unfold do_math.
  destruct (String.eqb_spec operation "subtract") as [->|S]; cbn.
  { split; [|intros [N _]; congruence].
    intros H. now apply the_result_is_no_error in H. }
  destruct (String.eqb_spec operation "multiply") as [->|M]; cbn.
  { split; [|intros [_ [N _]]; congruence].
    intros H. now apply the_result_is_no_error in H. }
  destruct (String.eqb_spec operation "divide") as [->|D]; cbn.
  { split; [|intros [_ [_ N]]; congruence].
    destruct (b =? 0)%Z; [discriminate|].
    intros H. now apply the_result_is_no_error in H. }
  split; auto.
Qed.

(** X2. [do_math] answers "Error: Division by zero" exactly when the
    operation is "divide" and the divisor is 0. *)
Theorem do_math_division_by_zero_iff (a b : Z) (operation : string) :
  do_math int_max_str_digits digits_error str_of_quotient a b operation
  = Returns "Error: Division by zero"
  <-> operation = "divide" /\ b = 0%Z.
Proof.
  unfold do_math.
  destruct (String.eqb_spec operation "subtract") as [->|S]; cbn.
  { split; [|intros [N _]; discriminate].
    intros H. now apply the_result_is_no_error in H. }
  destruct (String.eqb_spec operation "multiply") as [->|M]; cbn.
  { split; [|intros [N _]; discriminate].
    intros H. now apply the_result_is_no_error in H. }
  destruct (String.eqb_spec operation "divide") as [->|D]; cbn.
  - destruct (Z.eqb_spec b 0) as [->|N].
    + split; auto.
    + split; [|intros [_ E]; congruence].
      intros H. now apply the_result_is_no_error in H.
  - split; [discriminate | intros [E _]; congruence].
Qed.

(** What [f"The result is {result}"] returns prints [result] exactly. *)
Lemma the_result_is_format_int (n : Z) (reply : string) :
  the_result_is (format_int int_max_str_digits digits_error n)
  = Returns reply ->
  reply = "The result is " ++ Str.of_int n.
Proof.
  unfold format_int.
  destruct (_ && _)%bool; [discriminate|]. now intros [= <-].
Qed.

(** X3. The replies of "subtract" and "multiply" print the exact result:
    calls with equal differences, or products, end alike, and two calls
    that return the same reply computed the same difference, or product.
    (A call whose result has more digits than the interpreter turns into
    text raises, and returns no reply.) *)
Theorem do_math_reply_determines_result (a b c d : Z) :
  ((a - b = c - d)%Z ->
   do_math int_max_str_digits digits_error str_of_quotient a b "subtract"
   = do_math int_max_str_digits digits_error str_of_quotient c d "subtract")
  /\ (forall reply,
        do_math int_max_str_digits digits_error str_of_quotient a b
          "subtract" = Returns reply ->
        do_math int_max_str_digits digits_error str_of_quotient c d
          "subtract" = Returns reply ->
        (a - b = c - d)%Z)
  /\ ((a * b = c * d)%Z ->
      do_math int_max_str_digits digits_error str_of_quotient a b "multiply"
      = do_math int_max_str_digits digits_error str_of_quotient c d
          "multiply")
  /\ (forall reply,
        do_math int_max_str_digits digits_error str_of_quotient a b
          "multiply" = Returns reply ->
        do_math int_max_str_digits digits_error str_of_quotient c d
          "multiply" = Returns reply ->
        (a * b = c * d)%Z).
Proof.
  unfold do_math; cbn.
  split; [now intros ->|]. split.
  - intros reply H1 H2. apply the_result_is_format_int in H1, H2.
    apply of_int_inj. rewrite H1 in H2. now injection H2.
  - split; [now intros ->|].
    intros reply H1 H2. apply the_result_is_format_int in H1, H2.
    apply of_int_inj. rewrite H1 in H2. now injection H2.
Qed.

End DoMathFacts.

Lemma do_math_reply_determines_result_witness :
  do_math_with (Returns "1.5") 7 5 "subtract" = Returns "The result is 2"
  /\ do_math_with (Returns "1.5") 10 8 "subtract"
     = Returns "The result is 2"
  /\ (7 - 5 = 10 - 8)%Z
  /\ do_math_with (Returns "1.5") 4 9 "multiply"
     = Returns "The result is 36"
  /\ do_math_with (Returns "1.5") (-6) (-6) "multiply"
     = Returns "The result is 36"
  /\ (4 * 9 = -6 * -6)%Z.
Proof.
  destruct (do_math_reply_determines_result default_int_max_str_digits
              default_digits_error (fun _ _ => Returns "1.5") 7 5 10 8)
    as (_ & S & _).
  destruct (do_math_reply_determines_result default_int_max_str_digits
              default_digits_error (fun _ _ => Returns "1.5") 4 9 (-6) (-6))
    as (_ & _ & _ & M).
  split; [reflexivity|]. split; [reflexivity|].
  split; [exact (S _ eq_refl eq_refl)|].
  split; [reflexivity|]. split; [reflexivity|].
  exact (M _ eq_refl eq_refl).
Defined.

Section MoreStrFacts.
Import Str StrFacts.

Lemma prefix_of_take (sub s : string) (n : nat) :
  String.prefix sub (take n s) = true -> String.prefix sub s = true.
Proof.
  revert s n; induction sub as [|c sub IH]; intros s n.
  - intros _. apply prefix_nil.
  - destruct n as [|n], s as [|d s]; try discriminate.
    cbn [take]. rewrite !prefix_cons.
    destruct (ascii_dec c d); [apply IH | discriminate].
Qed.

(** The text before the first occurrence holds no occurrence. *)
Lemma find_take_first (sub s : string) (j : nat) :
  sub <> "" -> find sub s = Some j -> find sub (take j s) = None.
Proof.
  intros N. revert j; induction s as [|c s IH]; intros j.
  - destruct j; cbn; destruct sub; congruence.
  - cbn [find]. destruct (String.prefix sub (String c s)) eqn:P.
    + intros [= <-]. cbn. destruct sub; congruence.
    + destruct (find sub s) as [i|] eqn:F; [|discriminate].
      intros [= <-]. cbn [take find].
      destruct (String.prefix sub (String c (take i s))) eqn:Q.
      * apply (prefix_of_take _ (String c s) (S i)) in Q. congruence.
      * now rewrite (IH i eq_refl).
Qed.

Lemma find_None_tail (sub s : string) (c : ascii) :
  find sub (String c s) = None -> find sub s = None.
Proof.
  cbn [find]. destruct (String.prefix sub (String c s)); [discriminate|].
  now destruct (find sub s).
Qed.

(** What follows a position of a text without occurrence has none. *)
Lemma find_None_drop (sub s : string) (n : nat) :
  find sub s = None -> find sub (drop n s) = None.
Proof.
  revert s; induction n as [|n IH]; intros s F; [exact F|].
  destruct s as [|c s]; [exact F|].
  cbn [drop]. apply IH. exact (find_None_tail _ _ _ F).
Qed.

Lemma prefix_peel (a x y : string) :
  String.prefix (a ++ x) (a ++ y) = String.prefix x y.
Proof.
  induction a as [|c a IH]; [reflexivity|].
  cbn [append]. rewrite prefix_cons.
  destruct (ascii_dec c c); [exact IH | congruence].
Qed.

Lemma app_assoc_str (a b c : string) : (a ++ b) ++ c = a ++ b ++ c.
Proof. induction a as [|x a IH]; cbn; [reflexivity | now rewrite IH]. Qed.

Lemma prefix_refl (a : string) : String.prefix a a = true.
Proof.
  induction a as [|c a IH]; [reflexivity|].
  rewrite prefix_cons. destruct (ascii_dec c c); [exact IH | congruence].
Qed.

Lemma length_take_le (n : nat) (s : string) :
  String.length (take n s) <= n.
Proof.
  revert s; induction n as [|n IH]; intros [|c s]; cbn; try lia.
  specialize (IH s). lia.
Qed.

Lemma take_all (n : nat) (s : string) :
  String.length s <= n -> take n s = s.
Proof.
  revert n; induction s as [|c s IH]; intros [|n] L; cbn in *;
    try reflexivity; try lia.
  f_equal. apply IH. lia.
Qed.

End MoreStrFacts.

Lemma up_to_next_fence_has_no_fence (text : string) :
  Str.contains fence (up_to_next_fence text) = false.
Proof.
  unfold up_to_next_fence, Str.contains.
  destruct (Str.find fence text) as [j|] eqn:F.
  - now rewrite (find_take_first fence text j) by (auto; discriminate).
  - now rewrite F.
Qed.

(** X4. [execute_code] takes the missing-code-block exit exactly for the
    completions without any fence marker. *)
Theorem extract_code_missing_iff (completion : string) :
  extract_code completion = Missing_code_block
  <-> Str.contains fence completion = false.
Proof.
  split; [|apply extract_code_no_fence].
  intros M. destruct (Str.contains fence completion) eqn:F; [|reflexivity].
  destruct (extract_code_fence _ F) as [code X]. congruence.
Qed.

(** X5. The code taken from a completion never holds a fence marker: the
    request sent to the sandbox carries no [```]. *)
Theorem extracted_code_has_no_fence (completion code : string) :
  extract_code completion = Code code ->
  Str.contains fence code = false.
Proof.
  unfold extract_code.
  destruct (Str.contains python_fence completion).
  { intros [= <-]. rewrite hd_split.
    apply up_to_next_fence_has_no_fence. }
  unfold Str.contains at 1.
  destruct (Str.find fence completion) as [i|] eqn:F; [|discriminate].
  destruct (split_fence_parts _ _ F) as [L C]. rewrite L, C.
  set (seg := up_to_next_fence _).
  assert (S : Str.contains fence seg = false)
    by apply up_to_next_fence_has_no_fence.
  assert (R : forall n, Str.contains fence (Str.drop n seg) = false).
  { intros n. unfold Str.contains in *.
    destruct (Str.find fence seg) eqn:G; [discriminate|].
    now rewrite (find_None_drop _ _ n G). }
  destruct (Str.contains LF seg); [|now intros [= <-]].
  rewrite splitn_S. destruct (Str.find LF seg) as [k|]; [|now intros [= <-]].
  cbn [Str.splitn].
  destruct (Str.isalpha _); intros [= <-]; [apply R | exact S].
Qed.

Lemma extracted_code_has_no_fence_witness :
  extract_code two_python_blocks = Code (LF ++ "B" ++ LF)
  /\ Str.contains fence (LF ++ "B" ++ LF) = false.
Proof.
  split; [reflexivity|].
  apply (extracted_code_has_no_fence two_python_blocks). reflexivity.
Defined.

(** X6. Without a [```python] fence, the first fenced segment is the code as
    it stands unless its first line is an alphabetic token: a first line such
    as [c++], or a segment of one line, is kept. *)
Theorem extract_code_keeps_other_first_line (completion segment : string) :
  Str.contains python_fence completion = false ->
  first_fenced_segment completion = Some segment ->
  (forall line, first_line_of segment = Some line ->
                Str.isalpha (Str.strip line) = false) ->
  extract_code completion = Code segment.
Proof.
  intros P S A. unfold first_fenced_segment in S.
  destruct (Str.find fence completion) as [i|] eqn:F; [|discriminate].
  injection S as S.
  destruct (split_fence_parts _ _ F) as [L C].
  assert (C' : nth 1 (Str.split fence completion) "" = segment)
    by (rewrite C; exact S).
  unfold extract_code. rewrite P. unfold Str.contains at 1.
  rewrite F, L, C'. unfold first_line_of in A.
  unfold Str.contains. rewrite splitn_S.
  destruct (Str.find LF segment) as [k|]; [|reflexivity].
  cbn [Str.splitn]. now rewrite (A _ eq_refl).
Qed.

Lemma extract_code_keeps_other_first_line_witness :
  let completion := "```c++" ++ LF ++ "int main() {}" ++ LF ++ "```" in
  Str.contains python_fence completion = false
  /\ first_fenced_segment completion
     = Some ("c++" ++ LF ++ "int main() {}" ++ LF)
  /\ extract_code completion = Code ("c++" ++ LF ++ "int main() {}" ++ LF).
Proof.
  cbv zeta. split; [reflexivity|]. split; [reflexivity|].
  apply extract_code_keeps_other_first_line; try reflexivity.
  intros line [= <-]. reflexivity.
Defined.

(** * Further properties of the retry loop *)

Section MoreLoopFacts.

Variable endpoint : nat -> outcome response.
Variable log_prefix : string.
Variable payload : value.
Variable request_timeout : Z.

Local Abbreviation body :=
  (attempt_body endpoint log_prefix payload request_timeout).
Local Abbreviation loop :=
  (for_attempts endpoint log_prefix payload request_timeout).
Local Abbreviation the_request :=
  (Post sandbox_fusion_url headers payload request_timeout).

Ltac run_turn :=
  unfold attempt_body, bind, log, sleep, post, emit, ret;
  cbn [fst snd]; rewrite ?calls_log.

(** A turn either goes on, having slept its back-off behind the call, or
    ends the loop right behind the call. *)
Lemma body_timeline (attempt : Z) (last_error : option string)
    (t : list event) :
  (exists e, fst (body attempt last_error t) = Continue e
             /\ timeline (snd (body attempt last_error t))
                = (timeline t ++ Called :: map Slept (backoff attempt))%list)
  \/ ((forall e, fst (body attempt last_error t) <> Continue e)
      /\ timeline (snd (body attempt last_error t))
         = (timeline t ++ [Called])%list).
Proof.
  run_turn.
  destruct (endpoint (calls t)) as [r|e].
  - destruct (status_code r =? 504)%Z.
    + left. eexists. unfold backoff.
      destruct (attempt <? MAX_RETRIES - 1)%Z; cbn [fst snd];
        autorewrite with trace; (split; [reflexivity|]);
        now rewrite <- ?List.app_assoc.
    + right. destruct (raise_for_status r).
      * cbn [fst snd]. autorewrite with trace. split; [discriminate | auto].
      * destruct (json r); cbn [fst snd]; autorewrite with trace;
          (split; [discriminate | auto]).
  - right. cbn [fst snd]. autorewrite with trace. split; [discriminate | auto].
Qed.

Lemma posts_app (t u : list event) : posts (t ++ u)%list = (posts t ++ posts u)%list.
Proof. apply filter_app. Qed.

Lemma posts_log (t : list event) (lv : level) (msg : string) :
  posts (t ++ [Log lv msg])%list = posts t.
Proof. rewrite posts_app. apply app_nil_r. Qed.

Lemma posts_sleep (t : list event) (d : Z) :
  posts (t ++ [Sleep d])%list = posts t.
Proof. rewrite posts_app. apply app_nil_r. Qed.

(** Every turn sends the request of the call, unchanged. *)
Lemma body_posts (attempt : Z) (last_error : option string)
    (t : list event) :
  posts (snd (body attempt last_error t)) = (posts t ++ [the_request])%list.
Proof.
  run_turn.
  assert (P : forall u, posts (u ++ [the_request])%list
                        = (posts u ++ [the_request])%list)
    by (intros u; now rewrite posts_app).
  destruct (endpoint (calls t)) as [r|e]; cbn [snd];
    [|now rewrite P, posts_log].
  destruct (status_code r =? 504)%Z.
  - destruct (attempt <? MAX_RETRIES - 1)%Z; cbn [snd];
      now rewrite ?posts_sleep, ?posts_log, P, posts_log.
  - destruct (raise_for_status r); cbn [snd]; [now rewrite P, posts_log|].
    destruct (json r); cbn [snd]; now rewrite posts_log, P, posts_log.
Qed.

Lemma loop_posts (todo : list Z) (last_error : option string)
    (t : list event) :
  Forall (eq the_request) (posts t) ->
  Forall (eq the_request) (posts (snd (loop todo last_error t))).
Proof.
  revert last_error t; induction todo as [|a todo IH]; intros le t F.
  - exact F.
  - rewrite loop_cons.
    assert (F' : Forall (eq the_request) (posts (snd (body a le t)))).
    { rewrite body_posts. apply Forall_app. split; [exact F|].
      now constructor. }
    destruct (fst (body a le t)); cbn [snd]; auto.
Qed.

(** How a turn that does not go on leaves the loop. *)
Lemma loop_stops (attempt : Z) (rest : list Z) (last_error : option string)
    (t : list event) :
  (forall e, fst (body attempt last_error t) <> Continue e) ->
  snd (loop (attempt :: rest) last_error t)
  = snd (body attempt last_error t).
Proof.
  intros N. rewrite loop_cons.
  destruct (fst (body attempt last_error t)) as [r|e|e] eqn:F;
    [reflexivity | reflexivity | now destruct (N e)].
Qed.

Lemma loop_goes_on (attempt : Z) (rest : list Z)
    (last_error e : option string) (t : list event) :
  fst (body attempt last_error t) = Continue e ->
  loop (attempt :: rest) last_error t
  = loop rest e (snd (body attempt last_error t)).
Proof. intros F. now rewrite loop_cons, F. Qed.

(** The calls and sleeps of the three attempts. *)
Lemma loop_timeline (last_error : option string) (t : list event) :
  timeline t = [] ->
  let shown := timeline (snd (loop [0; 1; 2]%Z last_error t)) in
  shown = [Called]
  \/ shown = [Called; Slept 1; Called]
  \/ shown = [Called; Slept 1; Called; Slept 2; Called].
Proof.
  intros T shown. unfold shown.
  destruct (body_timeline 0 last_error t) as [(e0 & F0 & T0) | (N0 & T0)];
    [|left; now rewrite loop_stops, T0, T].
  rewrite (loop_goes_on _ _ _ _ _ F0). rewrite T in T0.
  set (t1 := snd (body 0 last_error t)) in *.
  destruct (body_timeline 1 e0 t1) as [(e1 & F1 & T1) | (N1 & T1)];
    [|right; left; now rewrite loop_stops, T1, T0].
  rewrite (loop_goes_on _ _ _ _ _ F1). rewrite T0 in T1.
  set (t2 := snd (body 1 e0 t1)) in *.
  right; right.
  destruct (body_timeline 2 e1 t2) as [(e2 & F2 & T2) | (N2 & T2)].
  - rewrite (loop_goes_on _ _ _ _ _ F2). cbn [for_attempts ret snd].
    now rewrite T2, T1.
  - now rewrite loop_stops, T2, T1.
Qed.

End MoreLoopFacts.

(** X7. Whatever the endpoint does, a call shows one of four timelines: no
    outbound call at all; one call; a call, 1 second of sleep and a call; or
    a call, 1 second, a call, 2 seconds and a call.  So a call never sleeps
    more than 3 seconds in all, and never sleeps behind its last attempt. *)
Theorem every_call_shows_one_of_four_timelines
    (endpoint : nat -> outcome response)
    (uuid4 completion : string) (stdin : option string)
    (compile_timeout run_timeout memory_limit_mb : Z) (language : string) :
  let shown :=
    timeline (snd (run endpoint uuid4 completion stdin compile_timeout
                     run_timeout memory_limit_mb language)) in
  shown = []
  \/ shown = [Called]
  \/ shown = [Called; Slept 1; Called]
  \/ shown = [Called; Slept 1; Called; Slept 2; Called].
Proof.
  intros shown. unfold shown.
  destruct (extract_code completion) as [code|] eqn:X;
    [|left; now rewrite (run_missing _ _ _ _ _ _ _ _ X)].
  destruct (str_in language SUPPORTED_LANGUAGES) eqn:L;
    [|left; now rewrite (run_unsupported _ _ _ _ _ _ _ _ code X L)].
  right. rewrite (run_supported _ _ _ _ _ _ _ _ code X L).
  change (range MAX_RETRIES) with [0; 1; 2]%Z.
  match goal with
  | |- context [for_attempts ?e ?lp ?p ?tmo ?todo ?le ?t] =>
      pose proof (loop_timeline e lp p tmo le t eq_refl) as S;
      destruct (for_attempts e lp p tmo todo le t) as [[r|e'] t']
  end; cbn [snd] in *; autorewrite with trace; exact S.
Qed.

(** X8. Every outbound call of a run is the same request: a POST to the
    sandbox url, with the two JSON headers, the payload built from the
    extracted code and the inputs (no files, nothing to fetch), and the
    time-out [compile_timeout + run_timeout + API_TIMEOUT]; a retry resends
    it unchanged. *)
Theorem every_attempt_sends_the_same_request
    (endpoint : nat -> outcome response)
    (uuid4 completion : string) (stdin : option string)
    (compile_timeout run_timeout memory_limit_mb : Z) (language : string)
    (sent : event) :
  In sent (posts (snd (run endpoint uuid4 completion stdin compile_timeout
                         run_timeout memory_limit_mb language))) ->
  exists code,
    extract_code completion = Code code
    /\ sent
       = Post "http://localhost:8080/run_code"
           [("Content-Type", "application/json");
            ("Accept", "application/json")]
           (VDict [ ("compile_timeout", VInt compile_timeout);
                    ("run_timeout", VInt run_timeout);
                    ("code", VStr code);
                    ("stdin", optional_str stdin);
                    ("memory_limit_MB", VInt memory_limit_mb);
                    ("language", VStr language);
                    ("files", VDict []);
                    ("fetch_files", VList []) ])
           (compile_timeout + run_timeout + 10).
Proof.
  destruct (extract_code completion) as [code|] eqn:X;
    [|rewrite (run_missing _ _ _ _ _ _ _ _ X); intros []].
  destruct (str_in language SUPPORTED_LANGUAGES) eqn:L;
    [|rewrite (run_unsupported _ _ _ _ _ _ _ _ code X L); intros []].
  rewrite (run_supported _ _ _ _ _ _ _ _ code X L).
  intros I. exists code. split; [reflexivity|].
  match type of I with
  | context [for_attempts ?e ?lp ?p ?tmo ?todo ?le ?t] =>
      pose proof (loop_posts e lp p tmo todo le t (Forall_nil _)) as F;
      destruct (for_attempts e lp p tmo todo le t) as [[r|e'] t']
  end; cbn [snd] in *; rewrite ?posts_log in I;
    rewrite Forall_forall in F; symmetry; exact (F _ I).
Qed.

Lemma every_attempt_sends_the_same_request_witness :
  exists sent,
    In sent (posts (snd (run recovering_endpoint sample_uuid
                           python_completion (Some "") 10 5 128 "python")))
    /\ exists code,
         extract_code python_completion = Code code
         /\ sent
            = Post "http://localhost:8080/run_code"
                [("Content-Type", "application/json");
                 ("Accept", "application/json")]
                (VDict [ ("compile_timeout", VInt 10);
                         ("run_timeout", VInt 5);
                         ("code", VStr code);
                         ("stdin", optional_str (Some ""));
                         ("memory_limit_MB", VInt 128);
                         ("language", VStr "python");
                         ("files", VDict []);
                         ("fetch_files", VList []) ])
                (10 + 5 + 10).
Proof.
  eexists. split.
  - right. right. left. reflexivity.
  - apply (every_attempt_sends_the_same_request recovering_endpoint
             sample_uuid python_completion (Some "") 10 5 128 "python").
    right. right. left. reflexivity.
Defined.

(** * Properties of the [ntfy.sh] tools *)

Lemma reply_error_None_iff (r : http_reply) :
  reply_error r = None <-> ~ (400 <= reply_status r < 600)%Z.
Proof.
  unfold reply_error.
  destruct (Z.leb_spec 400 (reply_status r)),
           (Z.ltb_spec (reply_status r) 500),
           (Z.leb_spec 500 (reply_status r)),
           (Z.ltb_spec (reply_status r) 600); cbn [andb];
    (split; [intros E; try discriminate E; lia | intros N; try reflexivity; lia]).
Qed.

Section NtfyFacts.

Variable NTFY_BASE_URL : string.
Variable NTFY_TIMEOUT : Z.
Variable NTFY_SYNC_CHANNEL : string.
Variable network : request -> tried http_reply.
Variable utcnow_isoformat : string.
Variable upper : string -> string.
Variable float_repr : spec_float -> string.

Local Abbreviation post_message :=
  (post_ntfy_message NTFY_BASE_URL NTFY_TIMEOUT network).
Local Abbreviation notify :=
  (notify_external_system NTFY_BASE_URL NTFY_TIMEOUT NTFY_SYNC_CHANNEL network
     utcnow_isoformat upper float_repr).

Local Abbreviation ntfy_request :=
  (ntfy_post_request NTFY_BASE_URL NTFY_TIMEOUT).

(** X9. The reply of [post_ntfy_message] starts with [Posted to '] exactly
    when its request was answered and the status of the answer is no 4xx or
    5xx code: every failure is told apart from a success by the first words
    of the reply. *)
Theorem post_ntfy_message_says_posted_iff (channel message : string)
    (title : option string) :
  String.prefix "Posted to '" (fst (post_message channel message title)) = true
  <-> exists response,
        network (ntfy_request channel message title) = Got response
        /\ ~ (400 <= reply_status response < 600)%Z.
Proof.
  unfold post_ntfy_message, post_and_check.
  destruct (network (ntfy_request channel message title)) as [r|e].
  - destruct (reply_error r) as [e|] eqn:R.
    + split.
      * destruct (is_Timeout e), (is_ConnectionError e),
          (HTTPError_status e); cbn; discriminate.
      * intros (r' & [= <-] & N). apply reply_error_None_iff in N.
        congruence.
    + split.
      * intros _. exists r. split; [reflexivity|].
        now apply reply_error_None_iff.
      * intros _. cbn [fst].
        destruct (50 <? String.length message)%nat;
          apply (StrFacts.prefix_app "Posted to '").
  - split; [|intros (r' & E & _); discriminate E].
    destruct (is_Timeout e), (is_ConnectionError e), (HTTPError_status e);
      cbn; discriminate.
Qed.

(** X10. A success reply of [post_ntfy_message] shows at most the first 50
    characters of the message: it is never longer than the channel name plus
    67 characters, and a message of at most 50 characters is shown whole. *)
Theorem post_ntfy_message_echo_is_bounded (channel message : string)
    (title : option string) (response : http_reply) :
  network (ntfy_request channel message title) = Got response ->
  ~ (400 <= reply_status response < 600)%Z ->
  String.length (fst (post_message channel message title))
  <= String.length channel + 67
  /\ String.prefix ("Posted to '" ++ channel ++ "': " ++ Str.take 50 message)
       (fst (post_message channel message title)) = true
  /\ (String.length message <= 50 ->
      fst (post_message channel message title)
      = "Posted to '" ++ channel ++ "': " ++ message).
Proof.
  intros E N. apply reply_error_None_iff in N.
  unfold post_ntfy_message, post_and_check. rewrite E, N. cbn [fst].
  pose proof (length_take_le 50 message) as T.
  destruct (Nat.ltb_spec 50 (String.length message)) as [L|L].
  - split; [|split].
    + rewrite !StrFacts.length_app. cbn [String.length]. lia.
    + rewrite !prefix_peel. apply StrFacts.prefix_app.
    + lia.
  - rewrite (take_all 50 message L). split; [|split].
    + rewrite !StrFacts.length_app. cbn [String.length]. lia.
    + rewrite !prefix_peel. apply prefix_refl.
    + reflexivity.
Qed.

(** The notification, as JSON, is longer than 50 characters. *)
Lemma notification_is_long (agent_id status message : string) (error : bool) :
  50 < String.length
         (json_dumps float_repr
            (VDict [ ("agent_id", VStr agent_id);
                     ("status", VStr status);
                     ("message", VStr message);
                     ("timestamp", VStr utcnow_isoformat);
                     ("is_error", VBool error) ])).
Proof.
  cbn [json_dumps map Str.join fst snd]. unfold json_quote.
  change (json_escape "agent_id") with "agent_id".
  change (json_escape "status") with "status".
  change (json_escape "message") with "message".
  change (json_escape "timestamp") with "timestamp".
  change (json_escape "is_error") with "is_error".
  rewrite !StrFacts.length_app. destruct error; cbn; lia.
Qed.

(** X11. [notify_external_system] makes one request, whatever becomes of
    it, and the request always carries the [Title] header; the JSON text of
    the notification is longer than 50 characters and starts with the
    [agent_id] key, so a success reply never shows it whole: behind
    [Posted to '<sync channel>': ] stand the first 50 characters of the JSON
    text and three dots. *)
Theorem notify_external_system_reply_is_cut
    (agent_id status message : string) (error : bool) :
  let title := "Agent " ++ agent_id ++ " - " ++ upper status in
  let title := if error then title ++ " [ERROR]" else title in
  let data :=
    json_dumps float_repr
      (VDict [ ("agent_id", VStr agent_id);
               ("status", VStr status);
               ("message", VStr message);
               ("timestamp", VStr utcnow_isoformat);
               ("is_error", VBool error) ]) in
  requests_of (snd (notify agent_id status message error))
  = [ {| req_verb := POST;
         req_url := NTFY_BASE_URL ++ "/" ++ NTFY_SYNC_CHANNEL;
         req_data := Some (encode_utf8 data);
         req_headers := [("Title", title)];
         req_timeout := Some NTFY_TIMEOUT |} ]
  /\ 50 < String.length data
  /\ String.length (Str.take 50 data) = 50
  /\ String.prefix ("{" ++ DQUOTE ++ "agent_id" ++ DQUOTE ++ ": " ++ DQUOTE)
       (Str.take 50 data) = true
  /\ forall response,
       network (ntfy_request NTFY_SYNC_CHANNEL data (Some title))
       = Got response ->
       ~ (400 <= reply_status response < 600)%Z ->
       fst (notify agent_id status message error)
       = "Posted to '" ++ NTFY_SYNC_CHANNEL ++ "': " ++ Str.take 50 data
         ++ "...".
Proof.
  intros title0 title data.
  pose proof (notification_is_long agent_id status message error) as L.
  fold data in L.
  split; [|split; [exact L|split; [|split]]].
  - unfold notify_external_system, post_ntfy_message.
    fold title0. fold title. fold data.
    assert (T : title_headers (Some title) = [("Title", title)]).
    { unfold title, title0. now destruct error. }
    assert (R : ntfy_request NTFY_SYNC_CHANNEL data (Some title)
                = {| req_verb := POST;
                     req_url := NTFY_BASE_URL ++ "/" ++ NTFY_SYNC_CHANNEL;
                     req_data := Some (encode_utf8 data);
                     req_headers := [("Title", title)];
                     req_timeout := Some NTFY_TIMEOUT |}).
    { unfold ntfy_post_request. now rewrite T. }
    rewrite R.
    destruct (post_and_check _ _) as [response|e]; [reflexivity|].
    destruct (is_Timeout e), (is_ConnectionError e), (HTTPError_status e);
      reflexivity.
  - apply StrFacts.length_take. lia.
  - assert (D : exists rest,
               data = ("{" ++ DQUOTE ++ "agent_id" ++ DQUOTE ++ ": "
                       ++ DQUOTE) ++ rest).
    { unfold data. cbn [json_dumps map Str.join fst snd].
      unfold json_quote. change (json_escape "agent_id") with "agent_id".
      eexists. reflexivity. }
    destruct D as [rest ->].
    change (Str.take 50 (("{" ++ DQUOTE ++ "agent_id" ++ DQUOTE ++ ": "
                          ++ DQUOTE) ++ rest))
      with (("{" ++ DQUOTE ++ "agent_id" ++ DQUOTE ++ ": " ++ DQUOTE)
            ++ Str.take 36 rest).
    apply StrFacts.prefix_app.
  - intros response E N. apply reply_error_None_iff in N.
    unfold notify_external_system, post_ntfy_message, post_and_check.
    fold title0. fold title. fold data. rewrite E, N. cbn [fst].
    apply Nat.ltb_lt in L. now rewrite L.
Qed.

End NtfyFacts.

Lemma post_ntfy_message_echo_is_bounded_witness :
  let reply :=
    fst (post_ntfy_message "https://ntfy.sh" 10 accepting_network
           "agent_sync" "done" None) in
  String.length reply <= String.length "agent_sync" + 67
  /\ String.prefix ("Posted to '" ++ "agent_sync" ++ "': "
                    ++ Str.take 50 "done") reply = true
  /\ (String.length "done" <= 50 ->
      reply = "Posted to '" ++ "agent_sync" ++ "': " ++ "done").
Proof.
  refine (post_ntfy_message_echo_is_bounded "https://ntfy.sh" 10
            accepting_network "agent_sync" "done" None _ eq_refl _).
  cbn. lia.
Defined.

Lemma notify_external_system_reply_is_cut_witness :
  let notify :=
    notify_external_system "https://ntfy.sh" 10 "agent_sync"
      accepting_network "2025-01-01T00:00:00" upper_ascii no_float
      "agent_1" "idle" "ready" false in
  let data :=
    json_dumps no_float
      (VDict [ ("agent_id", VStr "agent_1");
               ("status", VStr "idle");
               ("message", VStr "ready");
               ("timestamp", VStr "2025-01-01T00:00:00");
               ("is_error", VBool false) ]) in
  requests_of (snd notify)
  = [ {| req_verb := POST;
         req_url := "https://ntfy.sh" ++ "/" ++ "agent_sync";
         req_data := Some (encode_utf8 data);
         req_headers := [("Title", "Agent " ++ "agent_1" ++ " - "
                                   ++ upper_ascii "idle")];
         req_timeout := Some 10%Z |} ]
  /\ fst notify
     = "Posted to '" ++ "agent_sync" ++ "': " ++ Str.take 50 data ++ "...".
Proof.
  destruct (notify_external_system_reply_is_cut "https://ntfy.sh" 10
              "agent_sync" accepting_network "2025-01-01T00:00:00"
              upper_ascii no_float "agent_1" "idle" "ready" false)
    as (R & _ & _ & _ & P).
  split; [exact R|].
  refine (P _ eq_refl _). cbn. lia.
Defined.

Example notify_external_system_sample :
  fst (notify_external_system "https://ntfy.sh" 10 "agent_sync"
         accepting_network "2025-01-01T00:00:00" upper_ascii no_float
         "agent_1" "idle" "ready" false)
  = "Posted to 'agent_sync': {" ++ DQUOTE ++ "agent_id" ++ DQUOTE ++ ": "
    ++ DQUOTE ++ "agent_1" ++ DQUOTE ++ ", " ++ DQUOTE ++ "status" ++ DQUOTE
    ++ ": " ++ DQUOTE ++ "idle" ++ DQUOTE ++ ", " ++ DQUOTE ++ "message..."
  /\ json_quote ("a" ++ DQUOTE ++ LF ++ String "233"%char "")
     = DQUOTE ++ "a" ++ BACKSLASH ++ DQUOTE ++ BACKSLASH ++ "n"
       ++ BACKSLASH ++ "u00e9" ++ DQUOTE
  /\ encode_utf8 (String "233"%char "a")
     = String "195"%char (String "169"%char "a").
Proof. repeat split; reflexivity. Qed.

(** * Properties of [search_fallback] *)

Section BacktickFacts.
Import Str StrFacts.

Local Abbreviation tick := "`".

Lemma find_tick_cons (c : ascii) (s : string) :
  find tick (String c s) = None <-> c <> "`"%char /\ find tick s = None.
Proof.
  cbn [find]. rewrite prefix_cons, prefix_nil.
  destruct (ascii_dec "`" c) as [<-|N].
  - split; [discriminate | intros [N _]; congruence].
  - destruct (find tick s); cbn.
    + split; [discriminate | intros [_ H]; discriminate H].
    + split; [intros _; split; congruence | reflexivity].
Qed.

Lemma find_tick_app (a b : string) :
  find tick (a ++ b) = None <-> find tick a = None /\ find tick b = None.
Proof.
  induction a as [|c a IH].
  - cbn [append]. split; [intros H; split; [reflexivity | exact H] | tauto].
  - cbn [append]. rewrite !find_tick_cons, IH. tauto.
Qed.

(** Behind a text without backtick, the first fence is the one that
    follows it, and no [```python] starts in it. *)
Lemma find_fence_behind_plain (body rest : string) :
  find tick body = None ->
  find fence (body ++ fence ++ rest) = Some (String.length body).
Proof.
  induction body as [|c body IH]; intros P.
  - cbn [append String.length]. change (find fence (fence ++ rest))
      with (if String.prefix fence (fence ++ rest) then Some 0
            else option_map S (find fence ("``" ++ rest))).
    now rewrite prefix_app.
  - apply find_tick_cons in P as [N P]. cbn [append find String.length].
    unfold fence at 1. rewrite prefix_cons.
    destruct (ascii_dec "`" c); [congruence|].
    now rewrite (IH P).
Qed.

Lemma no_python_fence_in_plain (body : string) :
  find tick body = None -> find python_fence (body ++ fence) = None.
Proof.
  induction body as [|c body IH]; intros P; [reflexivity|].
  apply find_tick_cons in P as [N P]. cbn [append find].
  unfold python_fence at 1. rewrite prefix_cons.
  destruct (ascii_dec "`" c); [congruence|].
  now rewrite (IH P).
Qed.

Lemma no_tick_in_uint (u : Decimal.uint) :
  find tick (NilEmpty.string_of_uint u) = None.
Proof.
  induction u; cbn [NilEmpty.string_of_uint]; [reflexivity|..];
    apply find_tick_cons; (split; [discriminate | assumption]).
Qed.

Lemma no_tick_in_of_int (n : Z) : find tick (of_int n) = None.
Proof.
  assert (U : forall u, find tick (NilZero.string_of_uint u) = None).
  { intros u. destruct u; [reflexivity|..];
      match goal with
      | |- find _ (NilZero.string_of_uint ?d) = None =>
          exact (no_tick_in_uint d)
      end. }
  unfold of_int. destruct (Z.to_int n) as [u|u].
  - apply U.
  - change (NilZero.string_of_int (Decimal.Neg u))
      with (String "-" (NilZero.string_of_uint u)).
    apply find_tick_cons. split; [discriminate | apply U].
Qed.

End BacktickFacts.

(** The program is the query and the number of results set into a fixed
    text that has no backtick. *)
Lemma fallback_program_parts :
  exists before between behind,
    Str.find "`" before = None /\ Str.find "`" between = None
    /\ Str.find "`" behind = None
    /\ forall q num_results,
         fallback_program q num_results
         = before ++ q ++ between ++ Str.of_int num_results ++ behind.
Proof.
  exists (Str.take 251 (fallback_program "" 0)),
         (Str.take 258 (Str.drop 251 (fallback_program "" 0))),
         (Str.drop 510 (fallback_program "" 0)).
  repeat split; try (vm_compute; reflexivity).
  intros q num_results. unfold fallback_program at 1. cbn [Str.join].
  rewrite !app_assoc_str. reflexivity.
Qed.

Lemma no_tick_in_fallback_program (q : string) (num_results : Z) :
  Str.find "`" q = None ->
  Str.find "`" (fallback_program q num_results) = None.
Proof.
  intros Q. destruct fallback_program_parts as (a & b & c & A & B & C & E).
  rewrite E, !find_tick_app. auto using no_tick_in_of_int.
Qed.

(** X12. For a query without backtick, the program [search_fallback] hands
    to the sandbox is its program text between two pairs of the characters
    backslash and [n]: the f-string writes [\\n], so the program sent
    starts with a backslash, not with a newline. *)
Theorem search_fallback_program_starts_with_backslash
    (q : string) (num_results : Z) :
  Str.contains "`" q = false ->
  extract_code (fallback_completion q num_results)
  = Code (BACKSLASH ++ "n" ++ fallback_program q num_results
          ++ BACKSLASH ++ "n")
  /\ String.prefix BACKSLASH
       (BACKSLASH ++ "n" ++ fallback_program q num_results
        ++ BACKSLASH ++ "n") = true.
Proof.
  intros Q. split; [|reflexivity].
  unfold Str.contains in Q.
  destruct (Str.find "`" q) eqn:F; [discriminate|].
  set (body := BACKSLASH ++ "n" ++ fallback_program q num_results
               ++ BACKSLASH ++ "n").
  assert (P : Str.find "`" body = None).
  { unfold body. rewrite !find_tick_app.
    auto using no_tick_in_fallback_program. }
  assert (E : fallback_completion q num_results
              = python_fence ++ body ++ fence ++ "").
  { unfold fallback_completion, body, python_fence, fence.
    cbn [append BACKSLASH]. do 11 f_equal.
    now rewrite app_assoc_str. }
  rewrite E.
  rewrite (extract_code_python_fence _ 0).
  - change (0 + String.length python_fence)
      with (String.length python_fence + 0).
    rewrite StrFacts.drop_app. cbn [Str.drop].
    unfold up_to_next_fence. rewrite (find_fence_behind_plain _ _ P).
    now rewrite StrFacts.take_app.
  - apply rfind_python_fence_restart, StrFacts.find_None_rfind.
    change (body ++ fence ++ "") with (body ++ fence).
    now apply no_python_fence_in_plain.
Qed.

Lemma search_fallback_program_starts_with_backslash_witness :
  Str.contains "`" "rocq prover" = false
  /\ extract_code (fallback_completion "rocq prover" 5)
     = Code (BACKSLASH ++ "n" ++ fallback_program "rocq prover" 5
             ++ BACKSLASH ++ "n")
  /\ String.prefix BACKSLASH
       (BACKSLASH ++ "n" ++ fallback_program "rocq prover" 5
        ++ BACKSLASH ++ "n") = true.
Proof.
  split; [reflexivity|].
  apply (search_fallback_program_starts_with_backslash "rocq prover" 5).
  reflexivity.
Defined.

(** ** [execute_code] behind earlier events *)

Section Frame.

Variable endpoint : nat -> outcome response.

Ltac run_turn :=
  unfold attempt_body, bind, log, sleep, post, emit, ret;
  cbn [fst snd]; rewrite ?calls_log.




End Frame.

Section FallbackFacts.

Variable loads : string -> loaded.
Variable str_other : value -> string.
Variable dict_slice_error : Z -> pyexc.
Variable endpoint : nat -> outcome response.
Variable uuid4 : string.

Local Abbreviation fallback :=
  (search_fallback loads str_other dict_slice_error endpoint uuid4).
Local Abbreviation sandbox_call :=
  (fun q num_results =>
     run endpoint uuid4 (fallback_completion q num_results) (Some "")
       10 5 128 "python").




End FallbackFacts.


(** A run that printed its results: the output is read under [stdout],
    the first key of the answer, and at most [num_results] entries are
    listed. *)
Example search_fallback_sample :
  fst (search_fallback found_loads (fun _ => "")
         (fun _ => builtin_error "TypeError" "unhashable type: 'slice'")
         found_endpoint sample_uuid "rocq prover" 5 [])
  = "Fallback Search Results for 'rocq prover':" ++ BACKSLASH ++ "n"
    ++ BACKSLASH ++ "n"
    ++ "1. The Rocq Prover" ++ BACKSLASH ++ "n"
    ++ "   URL: https://rocq-prover.org" ++ BACKSLASH ++ "n"
    ++ BACKSLASH ++ "n"
    ++ "2. Second" ++ BACKSLASH ++ "n"
    ++ "   URL: N/A" ++ BACKSLASH ++ "n" ++ BACKSLASH ++ "n"
  /\ fst (search_fallback found_loads (fun _ => "")
            (fun _ => builtin_error "TypeError" "unhashable type: 'slice'")
            found_endpoint sample_uuid "rocq prover" 1 [])
     = "Fallback Search Results for 'rocq prover':" ++ BACKSLASH ++ "n"
       ++ BACKSLASH ++ "n"
       ++ "1. The Rocq Prover" ++ BACKSLASH ++ "n"
       ++ "   URL: https://rocq-prover.org" ++ BACKSLASH ++ "n"
       ++ BACKSLASH ++ "n".
Proof. split; vm_compute; reflexivity. Qed.

(** * Properties of [read_ntfy_messages] *)

Section ReadFacts.

Variable NTFY_BASE_URL : string.
Variable network : request -> tried http_reply.
Variable loads : string -> loaded.
Variable str_other : value -> string.
Variable dumps_indent : value -> string.

Local Abbreviation read :=
  (read_ntfy_messages NTFY_BASE_URL network loads str_other dumps_indent).
Local Abbreviation lines_of :=
  (fun response : http_reply =>
     Str.split LF (Str.strip (reply_text response))).



Lemma read_reply (channel : string) (limit : Z) :
  fst (read channel limit)
  = match fst (read_attempt NTFY_BASE_URL network loads str_other
                 dumps_indent channel limit) with
    | Got formatted => formatted
    | Threw e => fst (read_failure channel e)
    end.
Proof.
  unfold read_ntfy_messages.
  destruct (read_attempt _ _ _ _ _ channel limit) as [[f|e] said];
    [reflexivity|].
  cbn [fst]. now destruct (read_failure channel e).
Qed.

Lemma read_failure_is_no_listing (channel : string) (e : pyexc) :
  String.prefix "Messages from '" (fst (read_failure channel e)) = false.
Proof.
  unfold read_failure.
  destruct (is_Timeout e), (is_ConnectionError e), (HTTPError_status e)
    as [code|]; try reflexivity.
  destruct (code =? 404)%Z; reflexivity.
Qed.


(** The second loop only appends to the text it is given. *)
Lemma ntfy_entries_extends (messages : list value) (i : Z)
    (formatted out : string) :
  ntfy_entries loads str_other dumps_indent i messages formatted = Got out ->
  exists tail, out = formatted ++ tail.
Proof.
  revert i formatted; induction messages as [|msg rest IH];
    intros i formatted.
  - intros [= <-]. exists "". symmetry. clear.
    induction formatted as [|c f IH]; cbn; [reflexivity | now rewrite IH].
  - cbn [ntfy_entries].
    destruct (py_get msg "time" (VStr "N/A")) as [timestamp|e];
      [|discriminate].
    destruct (py_get msg "message" (VStr "")) as [message_text|e];
      [|discriminate].
    destruct (py_get msg "title" (VStr "")) as [title|e]; [|discriminate].
    cbv zeta.
    match goal with
    | |- match ?parsed with _ => _ end = _ -> _ =>
        assert (X : forall f', parsed = Got f' ->
                               exists tail, f' = formatted ++ tail);
        [|destruct parsed as [f'|e]; [|discriminate]]
    end.
    + intros f'.
      destruct (truthy title), (truthy message_text), message_text;
        try destruct (loads s); intros [= <-];
        rewrite ?app_assoc_str; eauto.
    + intros H. destruct (IH _ _ H) as [tail ->].
      destruct (X f' eq_refl) as [tail' ->].
      rewrite !app_assoc_str. eauto.
Qed.

Lemma length_recent_messages (limit : Z) (messages : list value) :
  (0 < limit)%Z -> messages <> [] ->
  (1 <= Z.of_nat (List.length (recent_messages limit messages)) <= limit)%Z.
Proof.
  intros L N. unfold recent_messages, slice_bound.
  destruct (Z.ltb_spec (- limit) 0); [|lia].
  rewrite length_skipn.
  destruct messages; [congruence|]. cbn [List.length]. lia.
Qed.

(** X15. For a positive [limit], a reply of [read_ntfy_messages] that
    starts with [Messages from '] announces a number of messages between 1
    and [limit]: never more messages than were asked for. *)
Theorem read_ntfy_messages_announces_at_most_limit (channel : string)
    (limit : Z) :
  (0 < limit)%Z ->
  String.prefix "Messages from '" (fst (read channel limit)) = true ->
  exists count,
    (1 <= count <= limit)%Z
    /\ String.prefix
         ("Messages from '" ++ channel ++ "' (latest " ++ Str.of_int count
          ++ "):")
         (fst (read channel limit)) = true.
Proof.
  intros L. rewrite read_reply. unfold read_attempt.
  assert (F : forall e,
             String.prefix "Messages from '" (fst (read_failure channel e))
             = true -> False)
    by (intros e; now rewrite read_failure_is_no_listing).
  destruct (network (ntfy_read_request NTFY_BASE_URL channel)) as [r|e];
    [|intros P; destruct (F e P)].
  destruct (reply_error r) as [e|]; [intros P; destruct (F e P)|].
  unfold read_body.
  destruct (parse_lines loads _ [] []) as [[messages|e] said];
    [|intros P; destruct (F e P)].
  destruct messages as [|m ms]; [discriminate|].
  pose proof (length_recent_messages limit (m :: ms) L) as B.
  set (recent := recent_messages limit (m :: ms)) in *.
  destruct (ntfy_entries loads str_other dumps_indent 1 recent _)
    as [out|e] eqn:E; [|intros P; destruct (F e P)].
  intros _. cbn [fst]. exists (Z.of_nat (List.length recent)).
  split; [apply B; discriminate|].
  destruct (ntfy_entries_extends _ _ _ _ E) as [tail ->].
  rewrite !app_assoc_str. rewrite !prefix_peel.
  apply (StrFacts.prefix_app "):").
Qed.

End ReadFacts.


Lemma read_ntfy_messages_announces_at_most_limit_witness :
  exists count,
    (1 <= count <= 2)%Z
    /\ String.prefix
         ("Messages from '" ++ "agent_sync" ++ "' (latest "
          ++ Str.of_int count ++ "):")
         (fst (read_ntfy_messages "https://ntfy.sh" sample_channel
                 sample_loads (fun _ => "") (fun _ => "") "agent_sync" 2))
       = true.
Proof.
  refine (read_ntfy_messages_announces_at_most_limit "https://ntfy.sh"
            sample_channel sample_loads (fun _ => "") (fun _ => "")
            "agent_sync" 2 _ eq_refl).
  lia.
Defined.

Example read_ntfy_messages_sample :
  fst (read_ntfy_messages "https://ntfy.sh" sample_channel sample_loads
         (fun _ => "") (fun _ => "") "agent_sync" 2)
  = "Messages from 'agent_sync' (latest 2):" ++ LF ++ LF
    ++ "1. [Time: 2]" ++ LF ++ "   Message: hello" ++ LF ++ LF
    ++ "2. [Time: 3]" ++ LF ++ "   Message: hello" ++ LF ++ LF
  /\ snd (read_ntfy_messages "https://ntfy.sh" sample_channel sample_loads
            (fun _ => "") (fun _ => "") "agent_sync" 2)
     = [ Said INFO "Reading 2 messages from ntfy channel: agent_sync";
         Sent {| req_verb := GET;
                 req_url := "https://ntfy.sh/agent_sync/json?poll=1";
                 req_data := None; req_headers := [];
                 req_timeout := Some 10%Z |};
         Said WARNING "Failed to parse JSON message: oops";
         Said INFO "Successfully retrieved 2 messages from agent_sync" ].
Proof. split; reflexivity. Qed.

(** * Further properties of the returned error and of the tagged fence *)

(** Replacing a text at the head of a string puts the new text there. *)
Lemma replace_head (old new rest : string) :
  old <> "" ->
  String.prefix new (Str.replace old new (old ++ rest)) = true.
Proof.
  intros N. destruct old as [|c old]; [congruence|].
  unfold Str.replace, Str.split.
  change (String c old ++ rest) with (String c (old ++ rest)).
  cbn [String.length]. rewrite StrFacts.splitn_S.
  change (Str.find (String c old) (String c (old ++ rest)))
    with (if String.prefix (String c old) (String c old ++ rest)
          then Some 0
          else option_map S (Str.find (String c old) (old ++ rest))).
  rewrite StrFacts.prefix_app. cbn [Str.take].
  match goal with
  | |- context [Str.splitn ?m ?sep ?s] =>
      pose proof (StrFacts.splitn_not_nil m sep s) as NN;
      destruct (Str.splitn m sep s) as [|p ps]; [congruence|]
  end.
  cbn [Str.join append]. apply StrFacts.prefix_app.
Qed.

Section ErrorText.

Variable endpoint : nat -> outcome response.
Variable log_prefix : string.
Variable payload : value.
Variable request_timeout : Z.

(** The error a turn records starts with the log prefix. *)
Lemma body_records_prefixed (attempt : Z) (last_error : option string)
    (t : list event) (e : option string) :
  fst (attempt_body endpoint log_prefix payload request_timeout attempt
         last_error t) = Break e
  \/ fst (attempt_body endpoint log_prefix payload request_timeout attempt
            last_error t) = Continue e ->
  exists text, e = Some (log_prefix ++ text).
Proof.
  assert (H : forall x, exists text,
               Some (handler log_prefix x) = Some (log_prefix ++ text)).
  { intros x. unfold handler.
    destruct (is_RequestException x), (is_JSONDecodeError x); eauto. }
  unfold attempt_body, bind, log, sleep, post, emit, ret. cbn [fst snd].
  destruct (endpoint _) as [r|x].
  - destruct (status_code r =? 504)%Z.
    + destruct (attempt <? MAX_RETRIES - 1)%Z; cbn [fst];
        intros [[= <-]|[= <-]]; eauto.
    + destruct (raise_for_status r) as [x|]; [|destruct (json r) as [v|x]];
        cbn [fst]; intros [[= <-]|[= <-]]; auto.
  - cbn [fst]. intros [[= <-]|[= <-]]; auto.
Qed.

Lemma loop_records_prefixed (todo : list Z) (last_error e : option string)
    (t : list event) :
  todo <> [] ->
  fst (for_attempts endpoint log_prefix payload request_timeout todo
         last_error t) = Fell_through e ->
  exists text, e = Some (log_prefix ++ text).
Proof.
  revert last_error t; induction todo as [|a todo IH]; intros le t N;
    [congruence|].
  rewrite loop_cons.
  destruct (fst (attempt_body _ _ _ _ a le t)) as [r|b|c] eqn:B; cbn [fst].
  - discriminate.
  - intros [= <-]. eapply body_records_prefixed. left. exact B.
  - destruct todo as [|a' todo].
    + cbn. intros [= <-]. eapply body_records_prefixed. right. exact B.
    + apply IH. discriminate.
Qed.

End ErrorText.

(** X16. For a completion with a code block and a supported language, every
    error text [execute_code] returns starts with [API Call Failed: ]: the
    log prefix with the request id is taken off the head of the recorded
    error, whatever the endpoint did and whatever the exception said. *)
Theorem every_request_error_starts_with_api_call_failed
    (endpoint : nat -> outcome response)
    (uuid4 completion : string) (stdin : option string)
    (compile_timeout run_timeout memory_limit_mb : Z) (language : string)
    (text : string) :
  Str.contains fence completion = true ->
  In language SUPPORTED_LANGUAGES ->
  snd (fst (run endpoint uuid4 completion stdin compile_timeout run_timeout
              memory_limit_mb language)) = VStr text ->
  String.prefix "API Call Failed: " text = true.
Proof.
  intros F L. destruct (extract_code_fence _ F) as [code X].
  apply str_in_In in L.
  rewrite (run_supported _ _ _ _ _ _ _ _ code X L).
  match goal with
  | |- context [for_attempts ?e ?lp ?p ?tmo ?todo ?le ?t] =>
      pose proof (loop_return_shape e lp p tmo todo le t) as R;
      pose proof (fun x => loop_records_prefixed e lp p tmo todo le x t) as P;
      destruct (for_attempts e lp p tmo todo le t) as [[r|x] t']
  end; cbn [fst snd] in *.
  - destruct (R r eq_refl) as [parsed ->]. discriminate.
  - destruct (P x) as [recorded ->]; [discriminate | reflexivity |].
    intros [= <-].
    change (failure_text (log_prefix_of uuid4)
              (Some (log_prefix_of uuid4 ++ recorded)))
      with (Str.replace (log_prefix_of uuid4) "API Call Failed: "
              (log_prefix_of uuid4 ++ recorded)).
    exact (replace_head (log_prefix_of uuid4) "API Call Failed: " recorded
             ltac:(discriminate)).
Qed.

Lemma every_request_error_starts_with_api_call_failed_witness :
  String.prefix "API Call Failed: "
    ("API Call Failed: API Request Error: 500 Server Error: "
     ++ "Internal Server Error for url: http://localhost:8080/run_code")
  = true.
Proof.
  apply (every_request_error_starts_with_api_call_failed broken_endpoint
           sample_uuid python_completion (Some "") 10 5 128 "python").
  - reflexivity.
  - apply str_in_In. reflexivity.
  - reflexivity.
Defined.

(** X17. When the [```python] fence occurs once in the completion, the code
    extracted is the text between that fence and the next bare fence behind
    it (all that follows the fence when there is none). *)
Theorem extract_code_single_python_fence (completion : string) (i : nat) :
  Str.find python_fence completion = Some i ->
  Str.rfind python_fence completion = Some i ->
  exists code,
    first_python_block completion = Some code
    /\ extract_code completion = Code code.
Proof.
  intros F R. eexists. split.
  - unfold first_python_block, after_first_python_fence. rewrite F.
    reflexivity.
  - now apply extract_code_python_fence.
Qed.

Lemma extract_code_single_python_fence_witness :
  Str.find python_fence python_completion = Some 21
  /\ Str.rfind python_fence python_completion = Some 21
  /\ exists code,
       first_python_block python_completion = Some code
       /\ extract_code python_completion = Code code.
Proof.
  split; [reflexivity|]. split; [reflexivity|].
  apply (extract_code_single_python_fence python_completion 21);
    reflexivity.
Defined.
